(** * ActorDistributionNetwork: construction and forward pass

    A shallow embedding of [tf_agents/networks/actor_distribution_network.py].

    Python exceptions are modelled by an error monad, the constructor's calls
    into the layer and projection-network builders by a log of build events,
    nested specs by rose trees, and tensors by a dtype, a shape and a flat
    list of values. *)

From Stdlib Require Import String ZArith Arith Lia Bool List.
Import ListNotations.

Set Implicit Arguments.
Local Open Scope string_scope.
Local Open Scope nat_scope.
Local Open Scope list_scope.

(** ** Exceptions and the error monad *)

Inductive exn : Type :=
| ValueError (msg : string)
| IndexError
| InvalidArgumentError
| FrameworkError (msg : string).

Inductive result (A : Type) : Type :=
| Ok (a : A)
| Raise (e : exn).

Arguments Ok {A} a.
Arguments Raise {A} e.

Definition bind {A B : Type} (c : result A) (k : A -> result B) : result B :=
  match c with
  | Ok a => k a
  | Raise e => Raise e
  end.

Declare Scope result_scope.
Delimit Scope result_scope with result.
Notation "x <- c ;; k" := (bind c (fun x => k))
  (at level 61, c at next level, right associativity) : result_scope.
Notation "' p <- c ;; k" := (bind c (fun x => let p := x in k))
  (at level 61, p pattern, c at next level, right associativity) : result_scope.
Local Open Scope result_scope.

(** [xs[i]] on a Python list. *)
Definition getitem {A : Type} (xs : list A) (i : nat) : result A :=
  match nth_error xs i with
  | Some x => Ok x
  | None => Raise IndexError
  end.

(** A list comprehension whose body may raise: the first exception aborts it. *)
Fixpoint mapM {A B : Type} (f : A -> result B) (xs : list A) : result (list B) :=
  match xs with
  | [] => Ok []
  | x :: xs' => y <- f x ;; ys <- mapM f xs' ;; Ok (y :: ys)
  end.

(** ** Nested structures ([tf.contrib.framework.nest]) *)

Module Nest.

(** A nest is a leaf or a sequence (tuple, list) of nests. *)
#[local] Unset Elimination Schemes.
Inductive nest (A : Type) : Type :=
| Leaf (a : A)
| Seq (children : list (nest A)).
#[local] Set Elimination Schemes.

Arguments Leaf {A} a.
Arguments Seq {A} children.

Section Induction.
Variable A : Type.
Variable P : nest A -> Prop.
Hypothesis HLeaf : forall a, P (Leaf a).
Hypothesis HSeq : forall children, Forall P children -> P (Seq children).

Fixpoint nest_ind' (s : nest A) : P s :=
  match s with
  | Leaf a => HLeaf a
  | Seq children =>
      HSeq ((fix all (l : list (nest A)) : Forall P l :=
               match l with
               | [] => Forall_nil P
               | c :: l' => Forall_cons c (nest_ind' c) (all l')
               end) children)
  end.
End Induction.

Section Ops.
Variables A B : Type.

(** [nest.flatten]: the leaves, left to right; a bare leaf flattens to a
    one-element list, the empty tuple to the empty list. *)
Fixpoint flatten (structure : nest A) : list A :=
  match structure with
  | Leaf a => [a]
  | Seq children => flat_map flatten children
  end.

Fixpoint map_structure (f : A -> B) (structure : nest A) : nest B :=
  match structure with
  | Leaf a => Leaf (f a)
  | Seq children => Seq (map (map_structure f) children)
  end.

(** [_packed_nest_with_indices]: walks the template, taking [flat[index]]
    at every leaf and returning the next free index. *)
Fixpoint pack_node (s : nest A) (flat : list B) (index : nat)
  : result (nat * nest B) :=
  match s with
  | Leaf _ => b <- getitem flat index ;; Ok (S index, Leaf b)
  | Seq children =>
      '(new_index, packed) <-
        (fix go (ss : list (nest A)) (index : nat)
           : result (nat * list (nest B)) :=
           match ss with
           | [] => Ok (index, [])
           | s' :: ss' =>
               '(new_index, child) <- pack_node s' flat index ;;
               '(last_index, packed) <- go ss' new_index ;;
               Ok (last_index, child :: packed)
           end) children index ;;
      Ok (new_index, Seq packed)
  end.

Fixpoint packed_nest_with_indices (structure : list (nest A))
  (flat : list B) (index : nat) : result (nat * list (nest B)) :=
  match structure with
  | [] => Ok (index, [])
  | s :: ss =>
      '(new_index, child) <- pack_node s flat index ;;
      '(last_index, packed) <- packed_nest_with_indices ss flat new_index ;;
      Ok (last_index, child :: packed)
  end.

(** [nest.pack_sequence_as(structure, flat_sequence)]. *)
Definition pack_sequence_as (structure : nest A) (flat_sequence : list B)
  : result (nest B) :=
  match structure with
  | Leaf _ =>
      if length flat_sequence =? 1
      then b <- getitem flat_sequence 0 ;; Ok (Leaf b)
      else Raise (ValueError "Structure is a scalar but len(flat_sequence) != 1")
  | Seq children =>
      if length (flatten structure) =? length flat_sequence
      then '(_, packed) <- packed_nest_with_indices children flat_sequence 0 ;;
           Ok (Seq packed)
      else Raise (ValueError "Could not pack sequence")
  end.
End Ops.

(** The shape of a nest: the nest with its leaves erased. *)
Definition structure_of {A : Type} (s : nest A) : nest unit :=
  map_structure (fun _ => tt) s.

(** What packing a sub-nest at [index] yields when the flat sequence is
    long enough: the next index, the leaves taken and the shape kept. *)
Definition packs_well {A B : Type} (flat : list B) (s : nest A) : Prop :=
  forall index,
    index + length (flatten s) <= length flat ->
    exists d,
      pack_node s flat index = Ok (index + length (flatten s), d) /\
      flatten d = firstn (length (flatten s)) (skipn index flat) /\
      structure_of d = structure_of s.

End Nest.

Import Nest.

(** ** Tensors, dtypes and specs *)

Inductive DType : Type := float32 | float64 | int32 | int64 | uint8 | bool_.

(** [dtype.is_integer]. *)
Definition is_integer (d : DType) : bool :=
  match d with
  | int32 | int64 | uint8 => true
  | float32 | float64 | bool_ => false
  end.

Definition Shape : Type := list nat.

(** Number of elements of a tensor of the given shape. *)
Definition num_elements (s : Shape) : nat := fold_right Nat.mul 1 s.

(** The element type of tensors and [tf.cast] on one element are the tensor
    framework's; the network only moves elements around. *)
Class TensorLib : Type := {
  val : Type;
  cast_value : DType -> val -> val
}.

Section Tensors.
Context {TL : TensorLib}.

Record Tensor : Type := {
  dtype : DType;
  shape : Shape;
  values : list val
}.

Definition well_formed (t : Tensor) : Prop :=
  length (values t) = num_elements (shape t).

(** [tf.cast(x, dtype)]. *)
Definition cast (x : Tensor) (d : DType) : Tensor :=
  {| dtype := d; shape := shape x; values := map (cast_value d) (values x) |}.

(** [tf.reshape(tensor, shape)] with a fully given target shape: the
    element count must not change. *)
Definition reshape (tensor : Tensor) (new_shape : Shape) : result Tensor :=
  if num_elements new_shape =? length (values tensor)
  then Ok {| dtype := dtype tensor; shape := new_shape; values := values tensor |}
  else Raise InvalidArgumentError.
End Tensors.

(** [tensor_spec.TensorSpec]: shape and dtype of one unbatched tensor. *)
Record TensorSpec : Type := {
  ts_shape : Shape;
  ts_dtype : DType
}.

(** Modelled from the spec: [tensor_spec.BoundedTensorSpec] is not part of the
    file; an action leaf carries bounds and is either discrete or continuous,
    which the library reads off the leaf's dtype. *)
Record BoundedTensorSpec : Type := {
  bts_shape : Shape;
  bts_dtype : DType;
  minimum : Z;
  maximum : Z
}.

(** Modelled from the spec: [BoundedTensorSpec.is_discrete] is not part of the
    file; a leaf is discrete when its dtype is an integer type, continuous
    otherwise. *)
Definition is_discrete (spec : BoundedTensorSpec) : bool :=
  is_integer (bts_dtype spec).

(** ** Outer rank and batch squash (repository helpers outside this file) *)

Section Helpers.
Context {TL : TensorLib}.

Definition shape_eqb (s1 s2 : Shape) : bool :=
  if list_eq_dec Nat.eq_dec s1 s2 then true else false.

(** Modelled from the spec: part of [nest_utils.get_outer_rank], which is not
    in the file.  The leading dimensions of [t_shape] beyond [s_shape], when
    the trailing dimensions of [t_shape] are exactly [s_shape]. *)
Definition outer_dims (t_shape s_shape : Shape) : option nat :=
  let r := length t_shape - length s_shape in
  if (length s_shape <=? length t_shape) && shape_eqb (skipn r t_shape) s_shape
  then Some r else None.

Fixpoint zip {A B : Type} (xs : list A) (ys : list B) : list (A * B) :=
  match xs, ys with
  | x :: xs', y :: ys' => (x, y) :: zip xs' ys'
  | _, _ => []
  end.

(** Modelled from the spec: part of [nest_utils.get_outer_rank]; every tensor
    is compared with its own spec, a mismatch fails at once. *)
Fixpoint all_outer_dims (pairs : list (Shape * Shape)) : result (list nat) :=
  match pairs with
  | [] => Ok []
  | (t_shape, s_shape) :: rest =>
      match outer_dims t_shape s_shape with
      | Some r => rs <- all_outer_dims rest ;; Ok (r :: rs)
      | None => Raise (ValueError "tensor shape is not compatible with its spec")
      end
  end.

(** Modelled from the spec: [nest_utils.get_outer_rank] is not part of the
    file.  The outer rank is the count of leading dimensions present in the
    data beyond the declared per-example shape, found by comparing each
    tensor's shape against its spec; all tensors must agree on it. *)
Definition get_outer_rank (tensors : nest Tensor) (specs : nest TensorSpec)
  : result nat :=
  let tensor_shapes := map shape (flatten tensors) in
  let spec_shapes := map ts_shape (flatten specs) in
  ranks <- all_outer_dims (zip tensor_shapes spec_shapes) ;;
  match ranks with
  | [] => Ok 0
  | r :: others =>
      if forallb (Nat.eqb r) others then Ok r
      else Raise (ValueError "tensors disagree on the number of outer dimensions")
  end.
End Helpers.

Module BatchSquash.
Section BatchSquash.
Context {TL : TensorLib}.

(** Modelled from the spec: [utils.BatchSquash] is not part of the file.  It
    is a reshape that collapses the leading (outer-rank) dimensions into a
    single batch dimension, paired with an inverse restore step; the object
    remembers the shape it squashed. *)
Record t : Type := {
  _batch_dims : nat;
  _original_tensor_shape : option Shape
}.

(** Modelled from the spec: [utils.BatchSquash(batch_dims)], nothing
    squashed yet. *)
Definition new (batch_dims : nat) : t :=
  {| _batch_dims := batch_dims; _original_tensor_shape := None |}.

(** Modelled from the spec: [BatchSquash.flatten] collapses the first
    [_batch_dims] dimensions into one and remembers the shape it was given. *)
Definition flatten (self : t) (tensor : Tensor) : result (Tensor * t) :=
  let self' := {| _batch_dims := _batch_dims self;
                  _original_tensor_shape := Some (shape tensor) |} in
  let squashed := num_elements (firstn (_batch_dims self) (shape tensor))
                  :: skipn (_batch_dims self) (shape tensor) in
  out <- reshape tensor squashed ;;
  Ok (out, self').

(** Modelled from the spec: [BatchSquash.unflatten], the inverse of the
    squash, puts the remembered leading dimensions back in place of the single
    batch dimension. *)
Definition unflatten (self : t) (tensor : Tensor) : result Tensor :=
  match _original_tensor_shape self with
  | None => Raise (ValueError "Please call flatten before unflatten.")
  | Some original =>
      reshape tensor (firstn (_batch_dims self) original ++ tl (shape tensor))
  end.
End BatchSquash.
End BatchSquash.

(** ** Layers, projection networks and the builders the constructor calls *)

Definition ConvParams : Type := (nat * nat * nat)%type.

Inductive Initializer : Type := glorot_uniform.

Section Layers.
Context {TL : TensorLib}.

(** A built layer is a function on tensors that may reject its input. *)
Definition Layer : Type := Tensor -> result Tensor.

(** What the surrounding library supplies: distributions and their specs,
    activation functions, and [utils.mlp_layers], which builds the feature
    stack from the convolution and fully connected parameters. *)
Class NetworkLib : Type := {
  Distribution : Type;
  DistributionSpec : Type;
  batch_shape : Distribution -> Shape;
  Activation : Type;
  mlp_layers :
    option (list ConvParams) -> option (list nat) -> Activation ->
    Initializer -> string -> result (list Layer)
}.

Context {NL : NetworkLib}.

(** A projection sub-network: its declared output spec and its forward
    call [projection(states, outer_rank)]. *)
Record ProjectionNetwork : Type := {
  output_spec : DistributionSpec;
  project : Tensor -> nat -> result Distribution
}.

Definition ProjectionFactory : Type :=
  BoundedTensorSpec -> result ProjectionNetwork.
End Layers.

(** ** The constructor's effects *)

(** Calls the constructor makes into the builders, in the order made. *)
Inductive event : Type :=
| MlpLayersBuilt
| DiscreteProjectionBuilt (spec : BoundedTensorSpec)
| ContinuousProjectionBuilt (spec : BoundedTensorSpec)
| SuperInit.

(** A constructor step reads the log so far and yields a value or an
    exception, together with the log extended by what it called. *)
Definition Ctor (A : Type) : Type := list event -> result A * list event.

Definition cret {A : Type} (a : A) : Ctor A := fun log => (Ok a, log).

Definition craise {A : Type} (e : exn) : Ctor A := fun log => (Raise e, log).

Definition cbind {A B : Type} (c : Ctor A) (k : A -> Ctor B) : Ctor B :=
  fun log =>
    match c log with
    | (Ok a, log') => k a log'
    | (Raise e, log') => (Raise e, log')
    end.

(** Calling a builder records the call, then yields what the builder did. *)
Definition invoke {A : Type} (ev : event) (r : result A) : Ctor A :=
  fun log => (r, log ++ [ev]).

(** A pure library call that may raise. *)
Definition lift {A : Type} (r : result A) : Ctor A := fun log => (r, log).

Declare Scope ctor_scope.
Delimit Scope ctor_scope with ctor.
Notation "x <- c ;; k" := (cbind c (fun x => k))
  (at level 61, c at next level, right associativity) : ctor_scope.

(** ** ActorDistributionNetwork *)

Module ActorDistributionNetwork.
Section Network.
Context {TL : TensorLib} {NL : NetworkLib}.

(** Modelled from the spec: the base class [network.DistributionNetwork] is
    not part of the file; its constructor keeps the specs and the name it is
    given. *)
Record DistributionNetwork : Type := {
  _observation_spec : nest TensorSpec;
  _action_spec : nest BoundedTensorSpec;
  _state_spec : nest TensorSpec;
  _output_spec : nest DistributionSpec;
  _name : string
}.

(** Modelled from the spec: [network.DistributionNetwork.__init__], which is
    not part of the file, keeps its arguments. *)
Definition super_init (observation_spec : nest TensorSpec)
  (action_spec : nest BoundedTensorSpec) (state_spec : nest TensorSpec)
  (output_spec : nest DistributionSpec) (name : string)
  : Ctor DistributionNetwork :=
  invoke SuperInit
    (Ok {| _observation_spec := observation_spec;
           _action_spec := action_spec;
           _state_spec := state_spec;
           _output_spec := output_spec;
           _name := name |}).

(** An instance: the base-class fields and the two attributes set at the end
    of [__init__]. *)
Record t : Type := {
  base :> DistributionNetwork;
  _mlp_layers : list Layer;
  _projection_networks : list ProjectionNetwork
}.

(** The loop over [nest.flatten(action_spec)], lines 100-106: one factory
    call per leaf, appended to [projection_networks]. *)
Fixpoint projection_loop (discrete_projection_net
                          continuous_projection_net : ProjectionFactory)
  (leaves : list BoundedTensorSpec)
  (projection_networks : list ProjectionNetwork)
  : Ctor (list ProjectionNetwork) :=
  match leaves with
  | [] => cret projection_networks
  | single_output_spec :: rest =>
      (if is_discrete single_output_spec
       then
         net <- invoke (DiscreteProjectionBuilt single_output_spec)
                  (discrete_projection_net single_output_spec) ;;
         projection_loop discrete_projection_net continuous_projection_net
           rest (projection_networks ++ [net])
       else
         net <- invoke (ContinuousProjectionBuilt single_output_spec)
                  (continuous_projection_net single_output_spec) ;;
         projection_loop discrete_projection_net continuous_projection_net
           rest (projection_networks ++ [net]))%ctor
  end.

(** The factory call the contract asks for on one leaf: the discrete
    factory on a discrete leaf, the continuous one otherwise. *)
Definition projection_for (discrete_projection_net
                           continuous_projection_net : ProjectionFactory)
  (leaf : BoundedTensorSpec) : result ProjectionNetwork :=
  if is_discrete leaf then discrete_projection_net leaf
  else continuous_projection_net leaf.

(** [net] is what that call returned on [leaf]. *)
Definition built_by (discrete_projection_net
                     continuous_projection_net : ProjectionFactory)
  (leaf : BoundedTensorSpec) (net : ProjectionNetwork) : Prop :=
  projection_for discrete_projection_net continuous_projection_net leaf
  = Ok net.

(** The log entry of that call. *)
Definition projection_event (leaf : BoundedTensorSpec) : event :=
  if is_discrete leaf then DiscreteProjectionBuilt leaf
  else ContinuousProjectionBuilt leaf.

(** [ActorDistributionNetwork.__init__], lines 56-122. *)
Definition __init__ (observation_spec : nest TensorSpec)
  (action_spec : nest BoundedTensorSpec)
  (fc_layer_params : option (list nat))
  (conv_layer_params : option (list ConvParams))
  (activation_fn : Activation)
  (discrete_projection_net continuous_projection_net : ProjectionFactory)
  (name : string) : Ctor t :=
  (if 1 <? length (flatten observation_spec)
   then craise (ValueError "Only a single observation is supported by this network")
   else
     layers <- invoke MlpLayersBuilt
                 (mlp_layers conv_layer_params fc_layer_params activation_fn
                    glorot_uniform "input_mlp") ;;
     projection_networks <-
       projection_loop discrete_projection_net continuous_projection_net
         (flatten action_spec) [] ;;
     let projection_distribution_specs :=
       map output_spec projection_networks in
     out_spec <- lift (pack_sequence_as action_spec
                         projection_distribution_specs) ;;
     super <- super_init observation_spec action_spec (Seq []) out_spec name ;;
     cret {| base := super;
             _mlp_layers := layers;
             _projection_networks := projection_networks |})%ctor.

(** The loop [for layer in self._mlp_layers: states = layer(states)]. *)
Fixpoint layer_loop (layers : list Layer) (states : Tensor) : result Tensor :=
  match layers with
  | [] => Ok states
  | layer :: rest => states' <- layer states ;; layer_loop rest states'
  end.

(** [ActorDistributionNetwork.call], lines 124-144; [step_type] is deleted on
    entry. *)
Definition call (self : t) (observations : nest Tensor) (step_type : Tensor)
  (network_state : nest Tensor) : result (nest Distribution * nest Tensor) :=
  outer_rank <- get_outer_rank observations (_observation_spec self) ;;
  let observations := flatten observations in
  obs0 <- getitem observations 0 ;;
  let states := cast obs0 float32 in
  let batch_squash := BatchSquash.new outer_rank in
  '(states, batch_squash) <- BatchSquash.flatten batch_squash states ;;
  states <- layer_loop (_mlp_layers self) states ;;
  states <- BatchSquash.unflatten batch_squash states ;;
  outputs <- mapM (fun projection => project projection states outer_rank)
               (_projection_networks self) ;;
  packed <- pack_sequence_as (_action_spec self) outputs ;;
  Ok (packed, network_state).

(** The prefix of [call] up to line 135: the outer rank, the squash object
    and the hidden features, still squashed. *)
Definition call_features (self : t) (observations : nest Tensor)
  : result (nat * BatchSquash.t * Tensor) :=
  outer_rank <- get_outer_rank observations (_observation_spec self) ;;
  let observations := flatten observations in
  obs0 <- getitem observations 0 ;;
  let states := cast obs0 float32 in
  let batch_squash := BatchSquash.new outer_rank in
  '(states, batch_squash) <- BatchSquash.flatten batch_squash states ;;
  states <- layer_loop (_mlp_layers self) states ;;
  Ok (outer_rank, batch_squash, states).

(** The prefix of [call] up to line 142: the hidden features with their
    outer dimensions back, and what every projection network made of them. *)
Definition call_outputs (self : t) (observations : nest Tensor)
  : result (nat * Tensor * list Distribution) :=
  '(outer_rank, batch_squash, states) <- call_features self observations ;;
  states <- BatchSquash.unflatten batch_squash states ;;
  outputs <- mapM (fun projection => project projection states outer_rank)
               (_projection_networks self) ;;
  Ok (outer_rank, states, outputs).
(** The contract's reading of the feature stack: every layer applied in
    sequence, in stack order, each to the output of the one before. *)
Inductive feeds_through : list Layer -> Tensor -> Tensor -> Prop :=
| feeds_nil (x : Tensor) : feeds_through [] x x
| feeds_cons (layer : Layer) (rest : list Layer) (x y z : Tensor) :
    layer x = Ok y -> feeds_through rest y z ->
    feeds_through (layer :: rest) x z.

(** The contract's reading of the batch squash on a tensor already cast. *)
Definition squashed (outer_rank : nat) (x : Tensor) : Tensor :=
  {| dtype := dtype x;
     shape := num_elements (firstn outer_rank (shape x))
              :: skipn outer_rank (shape x);
     values := values x |}.

(** What the network relies on from its layers: a layer keeps the single
    batch dimension in front, and keeps tensors well formed. *)
Definition batch_preserving (layer : Layer) : Prop :=
  forall (x y : Tensor) (n : nat) (s : Shape),
    shape x = n :: s -> well_formed x -> layer x = Ok y ->
    well_formed y /\ exists s', shape y = n :: s'.

(** What the network relies on from a projection: the distribution it
    returns keeps the outer dimensions of the features it was given. *)
Definition keeps_outer_dims (projection : ProjectionNetwork) : Prop :=
  forall (x : Tensor) (outer_rank : nat) (d : Distribution),
    project projection x outer_rank = Ok d ->
    firstn outer_rank (batch_shape d) = firstn outer_rank (shape x).
End Network.
End ActorDistributionNetwork.

(** ** A small concrete library, to run the network on *)

Module Example.

Definition Z_tensors : TensorLib :=
  {| val := Z; cast_value := fun _ v => v |}.

Definition tensor (d : DType) (s : Shape) (vs : list Z) : @Tensor Z_tensors :=
  @Build_Tensor Z_tensors d s vs.

Inductive toy_spec : Type :=
| CategoricalSpec (num_actions : Z)
| NormalSpec (event_shape : Shape).

Inductive toy_distribution : Type :=
| Categorical (batch : Shape) (num_actions : Z)
| Normal (batch : Shape) (event_shape : Shape).

Definition toy_batch_shape (d : toy_distribution) : Shape :=
  match d with
  | Categorical batch _ => batch
  | Normal batch _ => batch
  end.

(** Keeps the batch dimension and merges the others. *)
Definition flatten_layer : @Layer Z_tensors :=
  fun x =>
    match shape x with
    | [] => Raise InvalidArgumentError
    | n :: rest => reshape x [n; num_elements rest]
    end.

(** A fully connected layer with all weights zero. *)
Definition dense (units : nat) : @Layer Z_tensors :=
  fun x =>
    match shape x with
    | [n; _] => Ok (tensor float32 [n; units] (repeat 0%Z (n * units)))
    | _ => Raise InvalidArgumentError
    end.

Definition toy_mlp_layers (conv_layer_params : option (list ConvParams))
  (fc_layer_params : option (list nat)) (activation_fn : unit)
  (kernel_initializer : Initializer) (name : string)
  : result (list (@Layer Z_tensors)) :=
  match conv_layer_params with
  | Some _ => Raise (FrameworkError "no convolution layers here")
  | None =>
      Ok (flatten_layer ::
          match fc_layer_params with
          | Some units => map dense units
          | None => []
          end)
  end.

Definition toy_lib : @NetworkLib Z_tensors :=
  {| Distribution := toy_distribution;
     DistributionSpec := toy_spec;
     batch_shape := toy_batch_shape;
     Activation := unit;
     mlp_layers := toy_mlp_layers |}.

Definition categorical_projection (spec : BoundedTensorSpec)
  : @ProjectionNetwork Z_tensors toy_lib :=
  let n := (maximum spec - minimum spec + 1)%Z in
  Build_ProjectionNetwork (NL := toy_lib) (CategoricalSpec n)
    (fun states outer_rank =>
       Ok (Categorical (firstn outer_rank (shape states)) n)).

Definition normal_projection (spec : BoundedTensorSpec)
  : @ProjectionNetwork Z_tensors toy_lib :=
  Build_ProjectionNetwork (NL := toy_lib) (NormalSpec (bts_shape spec))
    (fun states outer_rank =>
       Ok (Normal (firstn outer_rank (shape states)) (bts_shape spec))).

Definition categorical_net : @ProjectionFactory Z_tensors toy_lib :=
  fun spec => Ok (categorical_projection spec).

Definition normal_net : @ProjectionFactory Z_tensors toy_lib :=
  fun spec => Ok (normal_projection spec).

Definition obs_leaf : TensorSpec := {| ts_shape := [3]; ts_dtype := int32 |}.

Definition discrete_leaf : BoundedTensorSpec :=
  {| bts_shape := []; bts_dtype := int32; minimum := 0; maximum := 4 |}.

Definition continuous_leaf : BoundedTensorSpec :=
  {| bts_shape := [2]; bts_dtype := float32; minimum := -1; maximum := 1 |}.

(** A mixed, nested action spec: [(discrete, (continuous, discrete))]. *)
Definition mixed_action_spec : nest BoundedTensorSpec :=
  Seq [Leaf discrete_leaf; Seq [Leaf continuous_leaf; Leaf discrete_leaf]].

(** A batch of observations with leading dimensions [B = 2] and [T = 4]. *)
Definition obs_2_4 : @Tensor Z_tensors :=
  tensor int32 [2; 4; 3] (repeat 7%Z 24).

Definition step_first : @Tensor Z_tensors :=
  tensor int32 [2; 4] (repeat 0%Z 8).

Definition step_mid : @Tensor Z_tensors :=
  tensor int32 [2; 4] (repeat 1%Z 8).

(** Runs the constructor from an empty log with the toy factories. *)
Definition build (observation_spec : nest TensorSpec)
  (action_spec : nest BoundedTensorSpec)
  : result (@ActorDistributionNetwork.t Z_tensors toy_lib) * list event :=
  ActorDistributionNetwork.__init__ (NL := toy_lib) observation_spec
    action_spec (Some [5; 6]) None tt categorical_net normal_net
    "ActorDistributionNetwork" [].

(** The network [build (Leaf obs_leaf) mixed_action_spec] constructs. *)
Definition toy_network : @ActorDistributionNetwork.t Z_tensors toy_lib :=
  ActorDistributionNetwork.Build_t
    (ActorDistributionNetwork.Build_DistributionNetwork (NL := toy_lib)
       (Leaf obs_leaf) mixed_action_spec (Seq [])
       (Seq [Leaf (CategoricalSpec 5);
             Seq [Leaf (NormalSpec [2]); Leaf (CategoricalSpec 5)]])
       "ActorDistributionNetwork")
    [flatten_layer; dense 5; dense 6]
    [categorical_projection discrete_leaf;
     normal_projection continuous_leaf;
     categorical_projection discrete_leaf].

(** The network [build (Seq []) mixed_action_spec] constructs: no
    observation at all. *)
Definition blind_network : @ActorDistributionNetwork.t Z_tensors toy_lib :=
  ActorDistributionNetwork.Build_t
    (ActorDistributionNetwork.Build_DistributionNetwork (NL := toy_lib)
       (Seq []) mixed_action_spec (Seq [])
       (Seq [Leaf (CategoricalSpec 5);
             Seq [Leaf (NormalSpec [2]); Leaf (CategoricalSpec 5)]])
       "ActorDistributionNetwork")
    [flatten_layer; dense 5; dense 6]
    [categorical_projection discrete_leaf;
     normal_projection continuous_leaf;
     categorical_projection discrete_leaf].

Definition toy_log : list event :=
  [MlpLayersBuilt; DiscreteProjectionBuilt discrete_leaf;
   ContinuousProjectionBuilt continuous_leaf;
   DiscreteProjectionBuilt discrete_leaf; SuperInit].

(** What [toy_network] makes of [obs_2_4]: the squashed hidden features,
    the restored ones, and the distributions. *)
Definition toy_hidden : @Tensor Z_tensors :=
  tensor float32 [8; 6] (repeat 0%Z 48).

Definition toy_restored : @Tensor Z_tensors :=
  tensor float32 [2; 4; 6] (repeat 0%Z 48).

Definition toy_outputs : list toy_distribution :=
  [Categorical [2; 4] 5; Normal [2; 4] [2]; Categorical [2; 4] 5].

Definition toy_dists : nest toy_distribution :=
  Seq [Leaf (Categorical [2; 4] 5);
       Seq [Leaf (Normal [2; 4] [2]); Leaf (Categorical [2; 4] 5)]].

End Example.

(** ** Builders, layers and projections that reject their input *)

Module Failing.
Import Example.

(** A convolution layer as the tensor framework has it: it takes a batch of
    images [n; h; w; c] and nothing else. *)
Definition conv2d (params : ConvParams) : @Layer Z_tensors :=
  fun x =>
    let '(filters, kernel_size, strides) := params in
    match shape x with
    | [n; h; w; _] =>
        let oh := (h - kernel_size) / strides + 1 in
        let ow := (w - kernel_size) / strides + 1 in
        Ok (tensor float32 [n; oh; ow; filters]
              (repeat 0%Z (n * (oh * (ow * filters)))))
    | _ => Raise InvalidArgumentError
    end.

(** A network with a convolution in front of its feature stack, declared on
    the vector observation [obs_leaf]. *)
Definition conv_network : @ActorDistributionNetwork.t Z_tensors toy_lib :=
  ActorDistributionNetwork.Build_t
    (ActorDistributionNetwork.Build_DistributionNetwork (NL := toy_lib)
       (Leaf obs_leaf) mixed_action_spec (Seq [])
       (Seq [Leaf (CategoricalSpec 5);
             Seq [Leaf (NormalSpec [2]); Leaf (CategoricalSpec 5)]])
       "ActorDistributionNetwork")
    [conv2d (8, 3, 1); flatten_layer; dense 5]
    [categorical_projection discrete_leaf;
     normal_projection continuous_leaf;
     categorical_projection discrete_leaf].

(** A discrete leaf whose bounds are the wrong way round. *)
Definition reversed_leaf : BoundedTensorSpec :=
  {| bts_shape := []; bts_dtype := int32; minimum := 3; maximum := 1 |}.

(** A discrete factory that checks the bounds of its leaf. *)
Definition checked_categorical_net : @ProjectionFactory Z_tensors toy_lib :=
  fun spec =>
    if (maximum spec <? minimum spec)%Z
    then Raise (ValueError "maximum is below minimum")
    else Ok (categorical_projection spec).

(** A continuous projection that handles a plain batch only. *)
Definition batch_only_projection (spec : BoundedTensorSpec)
  : @ProjectionNetwork Z_tensors toy_lib :=
  Build_ProjectionNetwork (NL := toy_lib) (NormalSpec (bts_shape spec))
    (fun states outer_rank =>
       if outer_rank =? 1
       then Ok (Normal (firstn 1 (shape states)) (bts_shape spec))
       else Raise (FrameworkError "only one outer dimension is supported")).

Definition batch_only_net : @ProjectionFactory Z_tensors toy_lib :=
  fun spec => Ok (batch_only_projection spec).

(** The network [__init__] builds from [categorical_net] and
    [batch_only_net] on the mixed action spec. *)
Definition picky_network : @ActorDistributionNetwork.t Z_tensors toy_lib :=
  ActorDistributionNetwork.Build_t
    (ActorDistributionNetwork.Build_DistributionNetwork (NL := toy_lib)
       (Leaf obs_leaf) mixed_action_spec (Seq [])
       (Seq [Leaf (CategoricalSpec 5);
             Seq [Leaf (NormalSpec [2]); Leaf (CategoricalSpec 5)]])
       "ActorDistributionNetwork")
    [flatten_layer; dense 5; dense 6]
    [categorical_projection discrete_leaf;
     batch_only_projection continuous_leaf;
     categorical_projection discrete_leaf].

(** The output spec the toy factories declare for a leaf. *)
Definition toy_spec_of (leaf : BoundedTensorSpec) : toy_spec :=
  if is_discrete leaf
  then CategoricalSpec (maximum leaf - minimum leaf + 1)
  else NormalSpec (bts_shape leaf).

(** The network [build (Leaf obs_leaf) (Leaf continuous_leaf)] constructs,
    on an action spec that is a bare leaf. *)
Definition bare_network : @ActorDistributionNetwork.t Z_tensors toy_lib :=
  ActorDistributionNetwork.Build_t
    (ActorDistributionNetwork.Build_DistributionNetwork (NL := toy_lib)
       (Leaf obs_leaf) (Leaf continuous_leaf) (Seq [])
       (Leaf (NormalSpec [2])) "ActorDistributionNetwork")
    [flatten_layer; dense 5; dense 6]
    [normal_projection continuous_leaf].

(** The network [build (Leaf obs_leaf) (Seq [])] constructs, on the empty
    action spec. *)
Definition idle_network : @ActorDistributionNetwork.t Z_tensors toy_lib :=
  ActorDistributionNetwork.Build_t
    (ActorDistributionNetwork.Build_DistributionNetwork (NL := toy_lib)
       (Leaf obs_leaf) (Seq []) (Seq []) (Seq []) "ActorDistributionNetwork")
    [flatten_layer; dense 5; dense 6]
    [].

End Failing.

(** * Properties *)

(** ** The error monad *)

Lemma bind_Ok_inv {A B : Type} (c : result A) (k : A -> result B) (b : B) :
  bind c k = Ok b -> exists a, c = Ok a /\ k a = Ok b.
Proof.
  destruct c as [a|e]; simpl; intros H.
  - exists a; split; [reflexivity | exact H].
  - discriminate H.
Qed.

(** Runs a hypothesis [... = Ok _] one bind further: the computation bound
    first must have succeeded. *)
Ltac step_bind H :=
  match type of H with
  | bind ?c ?k = Ok _ =>
      let a := fresh "a" in
      let Ha := fresh "Hbind" in
      apply bind_Ok_inv in H; destruct H as [a [Ha H]]
  | (let '(_, _) := ?p in _) = Ok _ => destruct p
  end.

Ltac bind_inv H := repeat step_bind H.

Lemma getitem_Ok {A : Type} (xs : list A) (i : nat) (x : A) :
  getitem xs i = Ok x <-> nth_error xs i = Some x.
Proof.
  unfold getitem; destruct (nth_error xs i); split; congruence.
Qed.

Lemma mapM_Ok_Forall2 {A B : Type} (f : A -> result B) (xs : list A) (ys : list B) :
  mapM f xs = Ok ys <-> Forall2 (fun x y => f x = Ok y) xs ys.
Proof.
  revert ys; induction xs as [|x xs IH]; intros ys; simpl.
  - split; intros H.
    + injection H as <-; constructor.
    + inversion H; reflexivity.
  - split; intros H.
    + bind_inv H. injection H as <-. constructor; [assumption | apply IH; assumption].
    + inversion H as [|? y ? ys' Hx Hxs]; subst.
      rewrite Hx; simpl. apply IH in Hxs. rewrite Hxs; reflexivity.
Qed.

(** ** Flattening and packing nests *)

Module NestFacts.
Section Facts.
Variables A B : Type.

Lemma firstn_one_skipn (flat : list B) (i : nat) (b : B) :
  nth_error flat i = Some b -> firstn 1 (skipn i flat) = [b].
Proof.
  revert flat; induction i as [|i IH]; intros [|x flat]; simpl; try discriminate.
  - intros [= ->]; reflexivity.
  - apply IH.
Qed.

Lemma firstn_add (n m : nat) (l : list B) :
  firstn (n + m) l = firstn n l ++ firstn m (skipn n l).
Proof.
  revert l; induction n as [|n IH]; intros l; simpl; [reflexivity|].
  destruct l as [|x l]; simpl.
  - now rewrite firstn_nil.
  - now rewrite IH.
Qed.

Lemma pack_node_Seq (children : list (nest A)) (flat : list B) (index : nat) :
  pack_node (Seq children) flat index =
  ('(new_index, packed) <- packed_nest_with_indices children flat index ;;
   Ok (new_index, Seq packed)).
Proof.
  simpl. f_equal.
  revert index; induction children as [|c cs IH]; intros index; simpl.
  - reflexivity.
  - destruct (pack_node c flat index) as [[j d]|e]; simpl; [|reflexivity].
    now rewrite IH.
Qed.

Lemma packed_children_ok (flat : list B) (children : list (nest A)) :
  Forall (packs_well flat) children ->
  forall index,
    index + length (flat_map (@flatten A) children) <= length flat ->
    exists ds,
      packed_nest_with_indices children flat index =
        Ok (index + length (flat_map (@flatten A) children), ds) /\
      flat_map (@flatten B) ds =
        firstn (length (flat_map (@flatten A) children)) (skipn index flat) /\
      map (@structure_of B) ds = map (@structure_of A) children.
Proof.
  induction 1 as [|c cs Hc _ IH]; intros index Hlen; simpl in *.
  - exists []; rewrite Nat.add_0_r; repeat split; reflexivity.
  - rewrite length_app in *.
    destruct (Hc index) as [d [Hd [Hfd Hsd]]]; [lia|].
    destruct (IH (index + length (flatten c))) as [ds [Hds [Hfds Hsds]]]; [lia|].
    exists (d :: ds). rewrite Hd; simpl. rewrite Hds; simpl.
    repeat split.
    + now rewrite Nat.add_assoc.
    + rewrite Hfd, Hfds, firstn_add, skipn_skipn.
      now rewrite (Nat.add_comm (length (flatten c)) index).
    + now rewrite Hsd, Hsds.
Qed.

Lemma pack_node_ok (flat : list B) (s : nest A) : packs_well flat s.
Proof.
  induction s as [a|children IH] using nest_ind'; intros index Hlen.
  - simpl in *.
    destruct (nth_error flat index) as [b|] eqn:Hnth.
    + exists (Leaf b). unfold getitem; rewrite Hnth; simpl.
      repeat split.
      * now rewrite Nat.add_1_r.
      * symmetry; now apply firstn_one_skipn.
    + apply nth_error_None in Hnth; lia.
  - destruct (packed_children_ok IH index Hlen) as [ds [Hds [Hfds Hsds]]].
    exists (Seq ds). rewrite pack_node_Seq, Hds; simpl.
    repeat split.
    + exact Hfds.
    + unfold structure_of in *; simpl. now f_equal.
Qed.

(** Packing succeeds exactly on a flat sequence of the template's length,
    and then rebuilds the template's shape around the given leaves. *)
Lemma pack_sequence_as_ok (s : nest A) (flat : list B) :
  length flat = length (flatten s) ->
  exists d,
    pack_sequence_as s flat = Ok d /\
    flatten d = flat /\
    structure_of d = structure_of s.
Proof.
  intros Hlen. destruct s as [a|children].
  - simpl in *. destruct flat as [|b [|? ?]]; try discriminate.
    exists (Leaf b); repeat split.
  - unfold pack_sequence_as. rewrite Hlen, Nat.eqb_refl.
    assert (Hfit : 0 + length (flat_map (@flatten A) children) <= length flat)
      by (simpl in Hlen; lia).
    assert (Hall : Forall (packs_well flat) children)
      by (apply Forall_forall; intros c _; apply pack_node_ok).
    destruct (packed_children_ok Hall 0 Hfit) as [ds [Hds [Hfds Hsds]]].
    exists (Seq ds). rewrite Hds; simpl. repeat split.
    + rewrite Hfds. simpl in Hlen. rewrite <- Hlen. apply firstn_all.
    + unfold structure_of in *; simpl. now f_equal.
Qed.

Lemma pack_sequence_as_length (s : nest A) (flat : list B) (d : nest B) :
  pack_sequence_as s flat = Ok d -> length flat = length (flatten s).
Proof.
  destruct s as [a|children]; unfold pack_sequence_as.
  - destruct (length flat =? 1) eqn:E; [|discriminate].
    intros _. now apply Nat.eqb_eq in E.
  - destruct (length (flatten (Seq children)) =? length flat) eqn:E; [|discriminate].
    intros _. symmetry. now apply Nat.eqb_eq in E.
Qed.

Lemma pack_sequence_as_inv (s : nest A) (flat : list B) (d : nest B) :
  pack_sequence_as s flat = Ok d ->
  flatten d = flat /\ structure_of d = structure_of s.
Proof.
  intros H.
  destruct (pack_sequence_as_ok s flat (pack_sequence_as_length _ _ H))
    as [d' [Hd' Hrest]].
  rewrite H in Hd'. injection Hd' as <-. exact Hrest.
Qed.
End Facts.

End NestFacts.

(** ** The constructor *)

Import ActorDistributionNetwork.
Import Example.

Module InitFacts.
Section Facts.
Context {TL : TensorLib} {NL : NetworkLib}.

Variables discrete_projection_net continuous_projection_net : ProjectionFactory.

(** A successful run of the loop appended one network per leaf, each from
    the factory its leaf selects, and logged one call per leaf. *)
Lemma projection_loop_inv (leaves : list BoundedTensorSpec) :
  forall acc log nets log',
    projection_loop discrete_projection_net continuous_projection_net
      leaves acc log = (Ok nets, log') ->
    exists new,
      nets = acc ++ new /\
      Forall2 (built_by discrete_projection_net continuous_projection_net)
        leaves new /\
      log' = log ++ map projection_event leaves.
Proof.
  induction leaves as [|leaf rest IH]; intros acc log nets log' H; simpl in H.
  - injection H as <- <-. exists []. now rewrite !app_nil_r.
  - unfold cbind, invoke in H.
    assert (Hstep : exists net,
               projection_for discrete_projection_net
                 continuous_projection_net leaf = Ok net /\
               projection_loop discrete_projection_net
                 continuous_projection_net rest (acc ++ [net])
                 (log ++ [projection_event leaf]) = (Ok nets, log')).
    { unfold projection_for, projection_event.
      destruct (is_discrete leaf);
        [destruct (discrete_projection_net leaf) as [net|e]
        |destruct (continuous_projection_net leaf) as [net|e]];
        try discriminate H; exists net; auto. }
    destruct Hstep as [net [Hnet Hrest]].
    destruct (IH _ _ _ _ Hrest) as [new [-> [Hall ->]]].
    exists (net :: new). repeat split.
    + now rewrite <- app_assoc.
    + now constructor.
    + simpl. now rewrite <- app_assoc.
Qed.

(** Conversely the loop succeeds whenever every selected factory does. *)
Lemma projection_loop_ok (leaves : list BoundedTensorSpec)
  (new : list ProjectionNetwork) :
  Forall2 (built_by discrete_projection_net continuous_projection_net)
    leaves new ->
  forall acc log,
    projection_loop discrete_projection_net continuous_projection_net
      leaves acc log
    = (Ok (acc ++ new), log ++ map projection_event leaves).
Proof.
  induction 1 as [|leaf net rest new Hnet _ IH]; intros acc log; simpl.
  - now rewrite !app_nil_r.
  - unfold built_by, projection_for in Hnet.
    unfold projection_event, cbind, invoke.
    destruct (is_discrete leaf); rewrite Hnet, IH, <- !app_assoc; reflexivity.
Qed.

Variables (observation_spec : nest TensorSpec)
          (action_spec : nest BoundedTensorSpec)
          (fc_layer_params : option (list nat))
          (conv_layer_params : option (list ConvParams))
          (activation_fn : Activation)
          (name : string).

(** Everything a successful construction did. *)
Lemma init_inv (log log' : list event) (net : t) :
  __init__ observation_spec action_spec fc_layer_params conv_layer_params
    activation_fn discrete_projection_net continuous_projection_net name log
  = (Ok net, log') ->
  length (flatten observation_spec) <= 1 /\
  mlp_layers conv_layer_params fc_layer_params activation_fn glorot_uniform
    "input_mlp" = Ok (_mlp_layers net) /\
  Forall2 (built_by discrete_projection_net continuous_projection_net)
    (flatten action_spec) (_projection_networks net) /\
  pack_sequence_as action_spec (map output_spec (_projection_networks net))
    = Ok (_output_spec net) /\
  _observation_spec net = observation_spec /\
  _action_spec net = action_spec /\
  _state_spec net = Seq [] /\
  _name net = name /\
  log' = log ++ MlpLayersBuilt :: map projection_event (flatten action_spec)
             ++ [SuperInit].
Proof.
  unfold __init__. destruct (1 <? length (flatten observation_spec)) eqn:Hobs.
  { discriminate. }
  apply Nat.ltb_ge in Hobs.
  unfold cbind at 1, invoke at 1.
  destruct (mlp_layers _ _ _ _ _) as [layers|e]; [|discriminate].
  unfold cbind at 1.
  destruct (projection_loop _ _ _ _ _) as [[nets|e] log1] eqn:Hloop;
    [|discriminate].
  apply projection_loop_inv in Hloop. destruct Hloop as [new [-> [Hall ->]]].
  unfold cbind at 1, lift.
  destruct (pack_sequence_as _ _) as [out_spec|e] eqn:Hpack; [|discriminate].
  unfold cbind, super_init, invoke, cret.
  intros [= <- <-]; simpl.
  repeat split; try assumption; try reflexivity.
  now rewrite <- !app_assoc.
Qed.

(** Construction succeeds as soon as the observation check passes and the
    builders it calls succeed: packing the output spec cannot fail. *)
Lemma init_ok (log : list event) (layers : list Layer)
  (nets : list ProjectionNetwork) :
  length (flatten observation_spec) <= 1 ->
  mlp_layers conv_layer_params fc_layer_params activation_fn glorot_uniform
    "input_mlp" = Ok layers ->
  Forall2 (built_by discrete_projection_net continuous_projection_net)
    (flatten action_spec) nets ->
  exists net log',
    __init__ observation_spec action_spec fc_layer_params conv_layer_params
    activation_fn discrete_projection_net continuous_projection_net name log
  = (Ok net, log') /\
    _mlp_layers net = layers /\ _projection_networks net = nets.
Proof.
  intros Hobs Hlayers Hnets.
  unfold __init__. apply Nat.ltb_ge in Hobs. rewrite Hobs.
  unfold cbind at 1, invoke at 1. rewrite Hlayers.
  unfold cbind at 1. rewrite (projection_loop_ok Hnets). simpl app at 1.
  destruct (@NestFacts.pack_sequence_as_ok _ _ action_spec (map output_spec nets))
    as [out_spec [Hpack _]].
  { rewrite length_map. symmetry. eapply Forall2_length; eassumption. }
  unfold cbind at 1, lift. rewrite Hpack.
  unfold cbind, super_init, invoke, cret.
  eexists; eexists; repeat split.
Qed.
End Facts.
End InitFacts.

(** ** Shapes, outer rank and batch squash *)

Module ShapeFacts.
Section Facts.
Context {TL : TensorLib}.

Lemma num_elements_app (s1 s2 : Shape) :
  num_elements (s1 ++ s2) = num_elements s1 * num_elements s2.
Proof.
  induction s1 as [|n s1 IH]; simpl.
  - lia.
  - rewrite IH. lia.
Qed.

Lemma num_elements_split (r : nat) (s : Shape) :
  num_elements (firstn r s) * num_elements (skipn r s) = num_elements s.
Proof. now rewrite <- num_elements_app, firstn_skipn. Qed.

Lemma shape_eqb_refl (s : Shape) : shape_eqb s s = true.
Proof. unfold shape_eqb. destruct (list_eq_dec Nat.eq_dec s s); congruence. Qed.

Lemma outer_dims_app (lead s : Shape) :
  outer_dims (lead ++ s) s = Some (length lead).
Proof.
  unfold outer_dims. rewrite length_app.
  replace (length lead + length s - length s) with (length lead) by lia.
  replace (length s <=? length lead + length s) with true
    by (symmetry; apply Nat.leb_le; lia).
  rewrite skipn_app, skipn_all, Nat.sub_diag. simpl.
  now rewrite shape_eqb_refl.
Qed.

Lemma get_outer_rank_single (tensors : nest Tensor) (specs : nest TensorSpec)
  (x : Tensor) (sp : TensorSpec) (lead : Shape) :
  flatten tensors = [x] -> flatten specs = [sp] ->
  shape x = lead ++ ts_shape sp ->
  get_outer_rank tensors specs = Ok (length lead).
Proof.
  intros Ht Hs Hx. unfold get_outer_rank. rewrite Ht, Hs. simpl.
  now rewrite Hx, outer_dims_app.
Qed.

Lemma get_outer_rank_empty (tensors : nest Tensor) (specs : nest TensorSpec) :
  flatten tensors = [] -> get_outer_rank tensors specs = Ok 0.
Proof. intros Ht. unfold get_outer_rank. now rewrite Ht. Qed.

Lemma well_formed_cast (x : Tensor) (d : DType) :
  well_formed x -> well_formed (cast x d).
Proof. unfold well_formed, cast; simpl. now rewrite length_map. Qed.

Lemma reshape_Ok (x y : Tensor) (s : Shape) :
  reshape x s = Ok y ->
  y = {| dtype := dtype x; shape := s; values := values x |} /\ well_formed y.
Proof.
  unfold reshape. destruct (num_elements s =? length (values x)) eqn:E;
    [|discriminate].
  intros [= <-]. split; [reflexivity|].
  apply Nat.eqb_eq in E. unfold well_formed; simpl. now symmetry.
Qed.

(** Squashing a well-formed tensor cannot fail. *)
Lemma flatten_ok (r : nat) (x : Tensor) :
  well_formed x ->
  BatchSquash.flatten (BatchSquash.new r) x
  = Ok (squashed r x,
        {| BatchSquash._batch_dims := r;
           BatchSquash._original_tensor_shape := Some (shape x) |}).
Proof.
  intros Hwf. unfold BatchSquash.flatten, BatchSquash.new, reshape; simpl.
  rewrite num_elements_split, <- Hwf, Nat.eqb_refl. reflexivity.
Qed.

(** Restoring succeeds on a well-formed tensor whose batch dimension is
    the product of the remembered outer dimensions. *)
Lemma unflatten_ok (r : nat) (original rest : Shape) (h : Tensor) :
  well_formed h ->
  shape h = num_elements (firstn r original) :: rest ->
  BatchSquash.unflatten
    {| BatchSquash._batch_dims := r;
       BatchSquash._original_tensor_shape := Some original |} h
  = Ok {| dtype := dtype h; shape := firstn r original ++ rest;
          values := values h |}.
Proof.
  intros Hwf Hshape. unfold BatchSquash.unflatten, reshape; simpl.
  rewrite Hshape; simpl.
  rewrite num_elements_app. unfold well_formed in Hwf.
  rewrite Hshape in Hwf; simpl in Hwf. rewrite <- Hwf, Nat.eqb_refl.
  reflexivity.
Qed.
End Facts.
End ShapeFacts.

(** ** The forward pass *)

Module CallFacts.
Section Facts.
Context {TL : TensorLib} {NL : NetworkLib}.

Lemma layer_loop_feeds (layers : list Layer) (x h : Tensor) :
  layer_loop layers x = Ok h <-> feeds_through layers x h.
Proof.
  revert x; induction layers as [|layer rest IH]; intros x; simpl.
  - split; intros H.
    + injection H as <-; constructor.
    + inversion H; reflexivity.
  - split; intros H.
    + bind_inv H. econstructor; [eassumption | now apply IH].
    + inversion H as [|? ? ? y ? Hx Hrest]; subst.
      rewrite Hx; simpl. now apply IH.
Qed.

Lemma layer_loop_batch (layers : list Layer) :
  Forall batch_preserving layers ->
  forall (x h : Tensor) (n : nat) (s : Shape),
    shape x = n :: s -> well_formed x ->
    layer_loop layers x = Ok h ->
    well_formed h /\ exists s', shape h = n :: s'.
Proof.
  induction 1 as [|layer rest Hlayer _ IH]; intros x h n s Hshape Hwf Hrun;
    simpl in Hrun.
  - injection Hrun as <-. eauto.
  - bind_inv Hrun.
    destruct (Hlayer _ _ _ _ Hshape Hwf Hbind) as [Hwf' [s' Hshape']].
    eapply IH; eassumption.
Qed.

(** [call] is its two prefixes followed by the packing. *)
Lemma call_features_outputs (self : t) (observations : nest Tensor) :
  call_outputs self observations =
  ('(outer_rank, batch_squash, states) <- call_features self observations ;;
   states <- BatchSquash.unflatten batch_squash states ;;
   outputs <- mapM (fun projection => project projection states outer_rank)
                (_projection_networks self) ;;
   Ok (outer_rank, states, outputs)).
Proof. reflexivity. Qed.

Lemma call_unfold (self : t) (observations : nest Tensor)
  (step_type : Tensor) (network_state : nest Tensor) :
  call self observations step_type network_state =
  ('(_, _, outputs) <- call_outputs self observations ;;
   packed <- pack_sequence_as (_action_spec self) outputs ;;
   Ok (packed, network_state)).
Proof.
  unfold call, call_outputs, call_features.
  destruct (get_outer_rank _ _) as [r|e]; simpl; [|reflexivity].
  destruct (getitem _ _) as [obs0|e]; simpl; [|reflexivity].
  destruct (BatchSquash.flatten _ _) as [[x bs]|e]; simpl; [|reflexivity].
  destruct (layer_loop _ _) as [h|e]; simpl; [|reflexivity].
  destruct (BatchSquash.unflatten _ _) as [h'|e]; simpl; [|reflexivity].
  destruct (mapM _ _) as [outs|e]; simpl; reflexivity.
Qed.

(** With two outer dimensions [B] and [T], the features come out of the
    layers with batch dimension [B * T], and restoring cannot fail. *)
Lemma features_round_trip (self : t) (observations : nest Tensor)
  (x : Tensor) (sp : TensorSpec) (B T : nat) :
  flatten (_observation_spec self) = [sp] ->
  flatten observations = [x] ->
  shape x = B :: T :: ts_shape sp ->
  well_formed x ->
  Forall batch_preserving (_mlp_layers self) ->
  forall r bs h,
    call_features self observations = Ok (r, bs, h) ->
    r = 2 /\ well_formed h /\
    exists s',
      shape h = B * T :: s' /\
      BatchSquash.unflatten bs h
      = Ok {| dtype := dtype h; shape := B :: T :: s'; values := values h |}.
Proof.
  intros Hspec Hobs Hshape Hwf Hlayers r bs h H.
  unfold call_features in H.
  rewrite (ShapeFacts.get_outer_rank_single observations (_observation_spec self)
             [B; T] Hobs Hspec Hshape) in H.
  simpl in H. rewrite Hobs in H. simpl in H.
  rewrite (ShapeFacts.flatten_ok _ (ShapeFacts.well_formed_cast float32 Hwf))
    in H.
  simpl in H.
  destruct (layer_loop (_mlp_layers self) _) as [h0|e] eqn:Hloop;
    simpl in H; [|discriminate].
  injection H as <- <- ->.
  assert (Hsq : shape (squashed 2 (cast x float32)) = B * T :: ts_shape sp).
  { simpl. rewrite Hshape. simpl. f_equal. lia. }
  assert (Hwfsq : well_formed (squashed 2 (cast x float32))).
  { unfold well_formed.
    change (length (map (cast_value float32) (values x))
            = num_elements (firstn 2 (shape x))
              * num_elements (skipn 2 (shape x))).
    rewrite length_map, ShapeFacts.num_elements_split. exact Hwf. }
  destruct (@layer_loop_batch (_mlp_layers self) Hlayers _ _ _ _ Hsq Hwfsq Hloop)
    as [Hwfh [s' Hh]].
  split; [reflexivity|]. split; [exact Hwfh|].
  exists s'. split; [exact Hh|].
  rewrite (@ShapeFacts.unflatten_ok _ 2 (shape x) s' h Hwfh).
  - simpl. rewrite Hshape. reflexivity.
  - simpl. rewrite Hshape, Hh. simpl. f_equal. lia.
Qed.
End Facts.
End CallFacts.

(** ** The contract of construction *)

Module Construction.
Section Claims.
Context {TL : TensorLib} {NL : NetworkLib}.

Variables (observation_spec : nest TensorSpec)
          (action_spec : nest BoundedTensorSpec)
          (fc_layer_params : option (list nat))
          (conv_layer_params : option (list ConvParams))
          (activation_fn : Activation)
          (discrete_projection_net continuous_projection_net : ProjectionFactory)
          (name : string).

(** C1: when the flattened observation spec holds more than one
    observation, the constructor raises the ValueError of line 91, and it
    does so before any builder is called: the log of builder calls is left
    as it was. *)
Theorem init_rejects_several_observations (log : list event) :
  1 < length (flatten observation_spec) ->
  __init__ observation_spec action_spec fc_layer_params conv_layer_params
    activation_fn discrete_projection_net continuous_projection_net name log =
    (Raise (ValueError "Only a single observation is supported by this network"),
     log).
Proof.
  intros Hmany. unfold __init__.
  apply Nat.ltb_lt in Hmany. rewrite Hmany. reflexivity.
Qed.

(** C2: a successful construction holds one projection network per leaf of
    the flattened action spec, in that order; the network of a leaf is what
    the discrete factory returned on that very leaf if the leaf is discrete,
    and what the continuous factory returned on it otherwise; and the
    factories were called once per leaf, in leaf order, between the
    building of the layers and the base-class constructor. *)
Theorem init_projection_networks (log log' : list event) (net : t) :
  __init__ observation_spec action_spec fc_layer_params conv_layer_params
    activation_fn discrete_projection_net continuous_projection_net name log
  = (Ok net, log') ->
  Forall2
    (fun leaf proj_net =>
       (if is_discrete leaf then discrete_projection_net leaf
        else continuous_projection_net leaf) = Ok proj_net)
    (flatten action_spec) (_projection_networks net) /\
  length (_projection_networks net) = length (flatten action_spec) /\
  log' = log ++ MlpLayersBuilt
             :: map (fun leaf =>
                       if is_discrete leaf then DiscreteProjectionBuilt leaf
                       else ContinuousProjectionBuilt leaf)
                  (flatten action_spec)
             ++ [SuperInit].
Proof.
  intros Hinit. apply InitFacts.init_inv in Hinit.
  destruct Hinit as (_ & _ & Hnets & _ & _ & _ & _ & _ & Hlog).
  repeat split.
  - exact Hnets.
  - symmetry. eapply Forall2_length. exact Hnets.
  - exact Hlog.
Qed.

(** C3: the output spec of a constructed network is the result of packing
    the projection networks' own output specs, in leaf order, into the
    structure of the action spec; so its leaves are those specs and its
    shape is the action spec's. *)
Theorem init_output_spec (log log' : list event) (net : t) :
  __init__ observation_spec action_spec fc_layer_params conv_layer_params
    activation_fn discrete_projection_net continuous_projection_net name log
  = (Ok net, log') ->
  pack_sequence_as action_spec (map output_spec (_projection_networks net))
    = Ok (_output_spec net) /\
  flatten (_output_spec net) = map output_spec (_projection_networks net) /\
  structure_of (_output_spec net) = structure_of action_spec.
Proof.
  intros Hinit. apply InitFacts.init_inv in Hinit.
  destruct Hinit as (_ & _ & _ & Hpack & _).
  split; [exact Hpack|].
  exact (NestFacts.pack_sequence_as_inv _ _ Hpack).
Qed.

(** C9: a constructed network declares the empty tuple as its state spec,
    whatever the observation and action specs are. *)
Theorem init_state_spec_empty (log log' : list event) (net : t) :
  __init__ observation_spec action_spec fc_layer_params conv_layer_params
    activation_fn discrete_projection_net continuous_projection_net name log
  = (Ok net, log') ->
  _state_spec net = Seq [] /\ flatten (_state_spec net) = [].
Proof.
  intros Hinit. apply InitFacts.init_inv in Hinit.
  destruct Hinit as (_ & _ & _ & _ & _ & _ & Hstate & _).
  rewrite Hstate. split; reflexivity.
Qed.

(** C10: an observation spec that flattens to nothing passes the
    constructor's check, so construction succeeds whenever the builders do;
    yet on the network so built every forward call on observations that
    flatten to nothing raises IndexError, at [observations[0]]. *)
Theorem init_accepts_no_observation (log : list event)
  (layers : list Layer) (nets : list ProjectionNetwork) :
  flatten observation_spec = [] ->
  mlp_layers conv_layer_params fc_layer_params activation_fn glorot_uniform
    "input_mlp" = Ok layers ->
  Forall2
    (fun leaf proj_net =>
       (if is_discrete leaf then discrete_projection_net leaf
        else continuous_projection_net leaf) = Ok proj_net)
    (flatten action_spec) nets ->
  exists net log',
    __init__ observation_spec action_spec fc_layer_params conv_layer_params
    activation_fn discrete_projection_net continuous_projection_net name log
  = (Ok net, log') /\
    forall observations step_type network_state,
      flatten observations = [] ->
      call net observations step_type network_state = Raise IndexError.
Proof.
  intros Hempty Hlayers Hnets.
  destruct (@InitFacts.init_ok _ _ discrete_projection_net
              continuous_projection_net observation_spec action_spec
              fc_layer_params conv_layer_params activation_fn name log
              layers nets)
    as (net & log' & Hinit & _).
  - rewrite Hempty. simpl. lia.
  - exact Hlayers.
  - exact Hnets.
  - exists net, log'. split; [exact Hinit|].
    intros observations step_type network_state Hobs.
    unfold call. rewrite (ShapeFacts.get_outer_rank_empty _ _ Hobs).
    simpl. rewrite Hobs. reflexivity.
Qed.
End Claims.

Lemma init_rejects_several_observations_witness :
  1 < length (flatten (Seq [Leaf obs_leaf; Leaf obs_leaf])) /\
  build (Seq [Leaf obs_leaf; Leaf obs_leaf]) mixed_action_spec =
    (Raise (ValueError "Only a single observation is supported by this network"),
     []).
Proof.
  split; [simpl; lia|].
  apply (init_rejects_several_observations (NL := toy_lib)). simpl; lia.
Defined.

Lemma init_projection_networks_witness :
  build (Leaf obs_leaf) mixed_action_spec = (Ok toy_network, toy_log) /\
  Forall2
    (fun leaf proj_net =>
       (if is_discrete leaf then categorical_net leaf else normal_net leaf)
       = Ok proj_net)
    [discrete_leaf; continuous_leaf; discrete_leaf]
    (_projection_networks toy_network) /\
  length (_projection_networks toy_network) = 3 /\
  toy_log
  = [] ++ MlpLayersBuilt
       :: map (fun leaf =>
                 if is_discrete leaf then DiscreteProjectionBuilt leaf
                 else ContinuousProjectionBuilt leaf)
            [discrete_leaf; continuous_leaf; discrete_leaf]
       ++ [SuperInit].
Proof.
  split; [reflexivity|].
  apply (init_projection_networks (NL := toy_lib) (Leaf obs_leaf)
           mixed_action_spec (Some [5; 6]) None tt categorical_net normal_net
           "ActorDistributionNetwork" []).
  reflexivity.
Defined.

Lemma init_output_spec_witness :
  build (Leaf obs_leaf) mixed_action_spec = (Ok toy_network, toy_log) /\
  pack_sequence_as mixed_action_spec
    (map output_spec (_projection_networks toy_network))
    = Ok (_output_spec toy_network) /\
  flatten (_output_spec toy_network)
    = map output_spec (_projection_networks toy_network) /\
  structure_of (_output_spec toy_network) = structure_of mixed_action_spec.
Proof.
  split; [reflexivity|].
  apply (init_output_spec (NL := toy_lib) (Leaf obs_leaf)
           mixed_action_spec (Some [5; 6]) None tt categorical_net normal_net
           "ActorDistributionNetwork" [] (log' := toy_log)).
  reflexivity.
Defined.

Lemma init_state_spec_empty_witness :
  build (Leaf obs_leaf) mixed_action_spec = (Ok toy_network, toy_log) /\
  _state_spec toy_network = Seq [] /\ flatten (_state_spec toy_network) = [].
Proof.
  split; [reflexivity|].
  apply (init_state_spec_empty (NL := toy_lib) (Leaf obs_leaf)
           mixed_action_spec (Some [5; 6]) None tt categorical_net normal_net
           "ActorDistributionNetwork" [] (log' := toy_log)).
  reflexivity.
Defined.

Lemma init_accepts_no_observation_witness :
  flatten (Seq [] : nest TensorSpec) = [] /\
  exists net log',
    build (Seq []) mixed_action_spec = (Ok net, log') /\
    forall observations step_type network_state,
      flatten observations = [] ->
      call net observations step_type network_state = Raise IndexError.
Proof.
  split; [reflexivity|].
  apply (init_accepts_no_observation (NL := toy_lib) (Seq [])
           mixed_action_spec (Some [5; 6]) None tt categorical_net normal_net
           "ActorDistributionNetwork" []
           (layers := [flatten_layer; dense 5; dense 6])
           (nets := [categorical_projection discrete_leaf;
                     normal_projection continuous_leaf;
                     categorical_projection discrete_leaf])).
  - reflexivity.
  - reflexivity.
  - simpl. repeat constructor.
Defined.
End Construction.

(** ** The contract of the forward call *)

Module Forward.
Section Claims.
Context {TL : TensorLib} {NL : NetworkLib}.

Variable self : t.
Variable observations : nest Tensor.

(** C4: whenever [call] returns, the second component of what it returns
    is the [network_state] it was given. *)
Theorem call_returns_network_state (step_type : Tensor)
  (network_state : nest Tensor) (dists : nest Distribution)
  (state_out : nest Tensor) :
  call self observations step_type network_state = Ok (dists, state_out) ->
  state_out = network_state.
Proof.
  unfold call. intros H. bind_inv H.
  injection H as _ <-. reflexivity.
Qed.

(** C7: two calls that agree on the observations and on the network state
    return the same thing, whatever their step types are. *)
Theorem call_ignores_step_type (step_type1 step_type2 : Tensor)
  (network_state : nest Tensor) :
  call self observations step_type1 network_state
  = call self observations step_type2 network_state.
Proof. reflexivity. Qed.

(** C8: on well-formed observations the first part of [call] succeeds with
    hidden features [h] exactly when the outer rank is determined, the
    flattened observations have a first tensor, and the feature layers,
    applied one after the other in stack order, take that tensor, cast to
    float32 and with its outer dimensions collapsed into one, to [h]; and
    every successful [call] went through that first part. *)
Theorem call_features_spec (outer_rank : nat) (batch_squash : BatchSquash.t)
  (h : Tensor) :
  Forall well_formed (flatten observations) ->
  (call_features self observations = Ok (outer_rank, batch_squash, h) <->
   exists obs0,
     get_outer_rank observations (_observation_spec self) = Ok outer_rank /\
     nth_error (flatten observations) 0 = Some obs0 /\
     batch_squash = {| BatchSquash._batch_dims := outer_rank;
                       BatchSquash._original_tensor_shape := Some (shape obs0) |} /\
     dtype (squashed outer_rank (cast obs0 float32)) = float32 /\
     shape (squashed outer_rank (cast obs0 float32))
       = num_elements (firstn outer_rank (shape obs0))
         :: skipn outer_rank (shape obs0) /\
     feeds_through (_mlp_layers self)
       (squashed outer_rank (cast obs0 float32)) h) /\
  (forall step_type network_state out,
      call self observations step_type network_state = Ok out ->
      exists r bs h', call_features self observations = Ok (r, bs, h')).
Proof.
  intros Hwf. split; [split|].
  - intros H. unfold call_features in H.
    destruct (get_outer_rank observations (_observation_spec self))
      as [r|e] eqn:Hrank; simpl in H; [|discriminate].
    destruct (getitem (flatten observations) 0) as [obs0|e] eqn:Hget;
      simpl in H; [|discriminate].
    apply getitem_Ok in Hget.
    assert (Hwf0 : well_formed obs0).
    { eapply Forall_forall; [exact Hwf|]. eapply nth_error_In; eassumption. }
    rewrite (ShapeFacts.flatten_ok _ (ShapeFacts.well_formed_cast float32 Hwf0))
      in H.
    simpl in H.
    destruct (layer_loop (_mlp_layers self) _) as [h0|e] eqn:Hloop;
      simpl in H; [|discriminate].
    injection H as -> <- ->.
    exists obs0. repeat split; try assumption.
    now apply CallFacts.layer_loop_feeds.
  - intros (obs0 & Hrank & Hnth & -> & _ & _ & Hfeeds).
    assert (Hwf0 : well_formed obs0).
    { eapply Forall_forall; [exact Hwf|]. eapply nth_error_In; eassumption. }
    unfold call_features. rewrite Hrank; simpl.
    apply getitem_Ok in Hnth. rewrite Hnth; simpl.
    rewrite (ShapeFacts.flatten_ok _ (ShapeFacts.well_formed_cast float32 Hwf0)).
    simpl. apply CallFacts.layer_loop_feeds in Hfeeds. rewrite Hfeeds.
    reflexivity.
  - intros step_type network_state out H.
    rewrite CallFacts.call_unfold in H.
    destruct (call_outputs self observations) as [[[r h'] outs]|e] eqn:Hout;
      [|discriminate].
    rewrite CallFacts.call_features_outputs in Hout.
    destruct (call_features self observations) as [[[r0 bs] h0]|e];
      [|discriminate].
    eauto.
Qed.

(** C5: for a single observation with two leading dimensions [B] and [T]
    in front of the declared per-example shape, and layers that keep the
    batch dimension, the restore after the layers cannot fail and undoes
    the squash: the features handed to the projection networks have the
    layers' values and per-example shape under leading dimensions [B] and
    [T] again, the outer rank passed along is 2, and every projection that
    keeps the outer dimensions of its input returns a distribution whose
    leading dimensions are [B] and [T]. *)
Theorem batch_squash_round_trip (x : Tensor) (sp : TensorSpec) (B T : nat) :
  flatten (_observation_spec self) = [sp] ->
  flatten observations = [x] ->
  shape x = B :: T :: ts_shape sp ->
  well_formed x ->
  Forall batch_preserving (_mlp_layers self) ->
  (forall r bs h,
      call_features self observations = Ok (r, bs, h) ->
      exists h',
        BatchSquash.unflatten bs h = Ok h' /\
        values h' = values h /\
        shape h' = B :: T :: tl (shape h)) /\
  (forall r h' outputs,
      call_outputs self observations = Ok (r, h', outputs) ->
      r = 2 /\
      firstn 2 (shape h') = [B; T] /\
      (Forall keeps_outer_dims (_projection_networks self) ->
       Forall (fun d => firstn 2 (batch_shape d) = [B; T]) outputs)).
Proof.
  intros Hspec Hobs Hshape Hwf Hlayers. split.
  - intros r bs h H.
    destruct (CallFacts.features_round_trip self observations Hspec Hobs
                Hshape Hwf Hlayers H) as (_ & _ & s' & Hh & Hun).
    eexists. split; [exact Hun|]. simpl. rewrite Hh. split; reflexivity.
  - intros r h' outputs H.
    rewrite CallFacts.call_features_outputs in H.
    destruct (call_features self observations) as [[[r0 bs] h]|e] eqn:Hfeat;
      simpl in H; [|discriminate].
    destruct (CallFacts.features_round_trip self observations Hspec Hobs
                Hshape Hwf Hlayers Hfeat) as (-> & _ & s' & Hh & Hun).
    rewrite Hun in H. simpl in H.
    destruct (mapM _ _) as [outs|e] eqn:Hmap; simpl in H; [|discriminate].
    injection H as <- <- <-.
    split; [reflexivity|]. split; [reflexivity|].
    intros Hkeep. apply mapM_Ok_Forall2 in Hmap.
    induction Hmap as [|p d ps ds Hp _ IH]; constructor.
    + inversion Hkeep as [|? ? Hkp _]; subst. apply Hkp in Hp. exact Hp.
    + apply IH. now inversion Hkeep.
Qed.
End Claims.

Section Repackaging.
Context {TL : TensorLib} {NL : NetworkLib}.

Variables (observation_spec : nest TensorSpec)
          (action_spec : nest BoundedTensorSpec)
          (fc_layer_params : option (list nat))
          (conv_layer_params : option (list ConvParams))
          (activation_fn : Activation)
          (discrete_projection_net continuous_projection_net : ProjectionFactory)
          (name : string).

(** C6: on a constructed network, what [call] returns first is the list of
    distributions, one per projection network applied to the restored
    hidden features in leaf order, packed into the structure of the action
    spec: its leaves are those distributions and its shape is the action
    spec's, whatever mix of discrete and continuous leaves that has; and
    the packing cannot fail once the projections have succeeded. *)
Theorem call_repackages (log log' : list event) (net : t)
  (observations : nest Tensor) (step_type : Tensor)
  (network_state : nest Tensor) :
  __init__ observation_spec action_spec fc_layer_params conv_layer_params
    activation_fn discrete_projection_net continuous_projection_net name log
  = (Ok net, log') ->
  (forall dists state_out,
      call net observations step_type network_state = Ok (dists, state_out) ->
      exists r h' outputs,
        call_outputs net observations = Ok (r, h', outputs) /\
        Forall2 (fun projection d => project projection h' r = Ok d)
          (_projection_networks net) outputs /\
        pack_sequence_as action_spec outputs = Ok dists /\
        flatten dists = outputs /\
        structure_of dists = structure_of action_spec) /\
  (forall r h' outputs,
      call_outputs net observations = Ok (r, h', outputs) ->
      exists dists,
        call net observations step_type network_state
        = Ok (dists, network_state)).
Proof.
  intros Hinit. apply InitFacts.init_inv in Hinit.
  destruct Hinit as (_ & _ & Hnets & _ & _ & Hact & _).
  assert (Hproj : forall r h' outputs,
             call_outputs net observations = Ok (r, h', outputs) ->
             Forall2 (fun projection d => project projection h' r = Ok d)
               (_projection_networks net) outputs).
  { intros r h' outputs H. rewrite CallFacts.call_features_outputs in H.
    destruct (call_features net observations) as [[[r0 bs] h]|e];
      simpl in H; [|discriminate].
    destruct (BatchSquash.unflatten bs h) as [h0|e]; simpl in H; [|discriminate].
    destruct (mapM _ _) as [outs|e] eqn:Hmap; simpl in H; [|discriminate].
    injection H as <- <- <-. now apply mapM_Ok_Forall2. }
  split.
  - intros dists state_out H. rewrite CallFacts.call_unfold, Hact in H.
    destruct (call_outputs net observations) as [[[r h'] outputs]|e] eqn:Hout;
      simpl in H; [|discriminate].
    destruct (pack_sequence_as action_spec outputs) as [packed|e] eqn:Hpack;
      simpl in H; [|discriminate].
    injection H as <- <-.
    exists r, h', outputs. split; [reflexivity|].
    split; [now apply Hproj|]. split; [exact Hpack|].
    exact (NestFacts.pack_sequence_as_inv _ _ Hpack).
  - intros r h' outputs H. rewrite CallFacts.call_unfold, Hact, H. simpl.
    destruct (@NestFacts.pack_sequence_as_ok _ _ action_spec outputs)
      as [dists [Hpack _]].
    { rewrite <- (Forall2_length (Hproj _ _ _ H)).
      symmetry. exact (Forall2_length Hnets). }
    exists dists. rewrite Hpack. reflexivity.
Qed.
End Repackaging.

Lemma flatten_layer_batch_preserving :
  batch_preserving (TL := Z_tensors) flatten_layer.
Proof.
  intros x y n s Hshape _ H. unfold flatten_layer in H. rewrite Hshape in H.
  apply ShapeFacts.reshape_Ok in H. destruct H as [-> Hwf].
  split; [exact Hwf|]. eexists; reflexivity.
Qed.

Lemma dense_batch_preserving (units : nat) :
  batch_preserving (TL := Z_tensors) (dense units).
Proof.
  intros x y n s Hshape _ H. unfold dense in H. rewrite Hshape in H.
  destruct s as [|m [|? ?]]; try discriminate H.
  injection H as <-. split.
  - unfold well_formed, tensor; simpl. rewrite repeat_length. lia.
  - eexists; reflexivity.
Qed.

Lemma categorical_keeps_outer_dims (spec : BoundedTensorSpec) :
  keeps_outer_dims (categorical_projection spec).
Proof.
  intros x r d [= <-]. simpl. now rewrite firstn_firstn, Nat.min_id.
Qed.

Lemma normal_keeps_outer_dims (spec : BoundedTensorSpec) :
  keeps_outer_dims (normal_projection spec).
Proof.
  intros x r d [= <-]. simpl. now rewrite firstn_firstn, Nat.min_id.
Qed.

Create HintDb toy.
#[local] Hint Resolve flatten_layer_batch_preserving dense_batch_preserving
  categorical_keeps_outer_dims normal_keeps_outer_dims : toy.

Lemma call_returns_network_state_witness :
  call toy_network (Leaf obs_2_4) step_first (Leaf step_mid)
    = Ok (toy_dists, Leaf step_mid) /\
  Leaf step_mid = Leaf step_mid.
Proof.
  split; [reflexivity|].
  apply (call_returns_network_state toy_network (Leaf obs_2_4) step_first
           (Leaf step_mid) (dists := toy_dists)).
  reflexivity.
Defined.

Lemma call_features_spec_witness :
  Forall well_formed (flatten (Leaf obs_2_4)) /\
  exists obs0,
    get_outer_rank (Leaf obs_2_4) (_observation_spec toy_network) = Ok 2 /\
    nth_error (flatten (Leaf obs_2_4)) 0 = Some obs0 /\
    {| BatchSquash._batch_dims := 2;
       BatchSquash._original_tensor_shape := Some [2; 4; 3] |}
    = {| BatchSquash._batch_dims := 2;
         BatchSquash._original_tensor_shape := Some (shape obs0) |} /\
    dtype (squashed 2 (cast obs0 float32)) = float32 /\
    shape (squashed 2 (cast obs0 float32))
      = num_elements (firstn 2 (shape obs0)) :: skipn 2 (shape obs0) /\
    feeds_through (_mlp_layers toy_network)
      (squashed 2 (cast obs0 float32)) toy_hidden.
Proof.
  assert (Hwf : Forall (well_formed (TL := Z_tensors)) (flatten (Leaf obs_2_4)))
    by (repeat constructor).
  split; [exact Hwf|].
  apply (proj1 (call_features_spec toy_network (Leaf obs_2_4) 2
                  {| BatchSquash._batch_dims := 2;
                     BatchSquash._original_tensor_shape := Some [2; 4; 3] |}
                  toy_hidden Hwf)).
  reflexivity.
Defined.

Lemma batch_squash_round_trip_witness :
  flatten (_observation_spec toy_network) = [obs_leaf] /\
  flatten (Leaf obs_2_4) = [obs_2_4] /\
  shape obs_2_4 = 2 :: 4 :: ts_shape obs_leaf /\
  well_formed obs_2_4 /\
  call_outputs toy_network (Leaf obs_2_4) = Ok (2, toy_restored, toy_outputs) /\
  2 = 2 /\
  firstn 2 (shape toy_restored) = [2; 4] /\
  Forall (fun d => firstn 2 (toy_batch_shape d) = [2; 4]) toy_outputs.
Proof.
  assert (Hlayers : Forall (batch_preserving (TL := Z_tensors))
                      (_mlp_layers toy_network)).
  { repeat (apply Forall_cons; [auto with toy|]). apply Forall_nil. }
  assert (Hkeep : Forall keeps_outer_dims (_projection_networks toy_network)).
  { repeat (apply Forall_cons; [auto with toy|]). apply Forall_nil. }
  do 5 (split; [reflexivity|]).
  destruct (proj2 (batch_squash_round_trip toy_network (Leaf obs_2_4)
                     (x := obs_2_4) (sp := obs_leaf) (B := 2) (T := 4)
                     eq_refl eq_refl eq_refl eq_refl Hlayers)
              2 toy_restored toy_outputs eq_refl) as (Hr & Hshape & Hdists).
  split; [exact Hr|]. split; [exact Hshape|]. exact (Hdists Hkeep).
Defined.

Lemma call_repackages_witness :
  build (Leaf obs_leaf) mixed_action_spec = (Ok toy_network, toy_log) /\
  call toy_network (Leaf obs_2_4) step_first (Seq []) = Ok (toy_dists, Seq []) /\
  exists r h' outputs,
    call_outputs toy_network (Leaf obs_2_4) = Ok (r, h', outputs) /\
    Forall2 (fun projection d => project projection h' r = Ok d)
      (_projection_networks toy_network) outputs /\
    pack_sequence_as mixed_action_spec outputs = Ok toy_dists /\
    flatten toy_dists = outputs /\
    structure_of toy_dists = structure_of mixed_action_spec.
Proof.
  split; [reflexivity|]. split; [reflexivity|].
  apply (proj1 (call_repackages (NL := toy_lib) (Leaf obs_leaf)
                  mixed_action_spec (Some [5; 6]) None tt categorical_net
                  normal_net "ActorDistributionNetwork" []
                  (log' := toy_log) (net := toy_network) (Leaf obs_2_4)
                  step_first (Seq []) eq_refl)
           toy_dists (Seq [])).
  reflexivity.
Defined.
End Forward.


(** ** How exceptions travel through the loops *)

Import Failing.

Module Propagation.
Section Facts.
Context {TL : TensorLib} {NL : NetworkLib}.

(** A comprehension raises what its first failing element raises. *)
Lemma mapM_Raise {A B : Type} (f : A -> result B) (before after : list A)
  (x : A) (ys : list B) (e : exn) :
  Forall2 (fun a b => f a = Ok b) before ys ->
  f x = Raise e ->
  mapM f (before ++ x :: after) = Raise e.
Proof.
  intros Hbefore Hx. induction Hbefore as [|a b before ys Ha _ IH]; simpl.
  - now rewrite Hx.
  - now rewrite Ha, IH.
Qed.

Lemma layer_loop_app (before after : list Layer) (x : Tensor) :
  layer_loop (before ++ after) x
  = (y <- layer_loop before x ;; layer_loop after y).
Proof.
  revert x; induction before as [|layer before IH]; intros x; simpl.
  - reflexivity.
  - destruct (layer x) as [y|e]; simpl; [apply IH | reflexivity].
Qed.

Variables discrete_projection_net continuous_projection_net : ProjectionFactory.

(** The loop stops at the first leaf whose factory raises: the leaves before
    it were built, the leaves after it are never passed to a factory. *)
Lemma projection_loop_Raise (before after : list BoundedTensorSpec)
  (leaf : BoundedTensorSpec) (new : list ProjectionNetwork) (e : exn) :
  Forall2 (built_by discrete_projection_net continuous_projection_net)
    before new ->
  projection_for discrete_projection_net continuous_projection_net leaf
  = Raise e ->
  forall acc log,
    projection_loop discrete_projection_net continuous_projection_net
      (before ++ leaf :: after) acc log
    = (Raise e, log ++ map projection_event (before ++ [leaf])).
Proof.
  intros Hbefore Hleaf.
  induction Hbefore as [|l net before new Hnet _ IH]; intros acc log; simpl.
  - unfold projection_for in Hleaf. unfold projection_event, cbind, invoke.
    destruct (is_discrete leaf); rewrite Hleaf; reflexivity.
  - unfold built_by, projection_for in Hnet.
    unfold projection_event at 1. unfold cbind, invoke.
    destruct (is_discrete l); rewrite Hnet, IH, <- !app_assoc; reflexivity.
Qed.

(** On discrete leaves only the loop does not look at the continuous
    factory, and on continuous leaves only not at the discrete one. *)
Lemma projection_loop_discrete_only (other : ProjectionFactory)
  (leaves : list BoundedTensorSpec) :
  forallb is_discrete leaves = true ->
  forall acc log,
    projection_loop discrete_projection_net continuous_projection_net
      leaves acc log
    = projection_loop discrete_projection_net other leaves acc log.
Proof.
  induction leaves as [|leaf rest IH]; intros Hall acc log; simpl.
  - reflexivity.
  - simpl in Hall. apply andb_true_iff in Hall. destruct Hall as [Hleaf Hrest].
    rewrite Hleaf. unfold cbind, invoke.
    destruct (discrete_projection_net leaf) as [net|e]; [|reflexivity].
    now apply IH.
Qed.

Lemma projection_loop_continuous_only (other : ProjectionFactory)
  (leaves : list BoundedTensorSpec) :
  forallb (fun leaf => negb (is_discrete leaf)) leaves = true ->
  forall acc log,
    projection_loop discrete_projection_net continuous_projection_net
      leaves acc log
    = projection_loop other continuous_projection_net leaves acc log.
Proof.
  induction leaves as [|leaf rest IH]; intros Hall acc log; simpl.
  - reflexivity.
  - simpl in Hall. apply andb_true_iff in Hall. destruct Hall as [Hleaf Hrest].
    apply negb_true_iff in Hleaf. rewrite Hleaf. unfold cbind, invoke.
    destruct (continuous_projection_net leaf) as [net|e]; [|reflexivity].
    now apply IH.
Qed.
End Facts.
End Propagation.

(** ** A nest is its structure and its leaves *)

Module NestDetermined.
Section Facts.
Variables A B : Type.

Lemma structure_of_length (s : nest A) (d : nest B) :
  structure_of d = structure_of s ->
  length (flatten d) = length (flatten s).
Proof.
  revert d; induction s as [a|children IH] using nest_ind';
    intros [b|ds]; unfold structure_of; simpl; try discriminate.
  - reflexivity.
  - intros [= Hmap]. revert ds Hmap.
    induction IH as [|c cs Hc _ IHcs]; intros [|d ds]; simpl; try discriminate.
    + reflexivity.
    + intros [= Hd Hds]. rewrite !length_app.
      f_equal; [apply Hc; exact Hd | apply IHcs; exact Hds].
Qed.

(** Two nests of one structure whose leaves correspond under [f] correspond
    under [map_structure f]. *)
Lemma map_structure_determined (f : A -> B) (s : nest A) :
  forall d : nest B,
    structure_of d = structure_of s ->
    flatten d = map f (flatten s) ->
    d = map_structure f s.
Proof.
  induction s as [a|children IH] using nest_ind'; intros [b|ds];
    unfold structure_of; simpl; try discriminate.
  - intros _ [= ->]. reflexivity.
  - intros [= Hmap] Hflat. f_equal. revert ds Hmap Hflat.
    induction IH as [|c cs Hc _ IHcs]; intros [|d ds]; simpl; try discriminate.
    + reflexivity.
    + intros [= Hd Hds] Hflat. rewrite map_app in Hflat.
      apply app_eq_app in Hflat.
      assert (Hlen : length (flatten d) = length (map f (flatten c))).
      { rewrite length_map. now apply structure_of_length. }
      destruct Hflat as [l [[H1 H2]|[H1 H2]]];
        assert (l = []) by
          (apply (f_equal (@length B)) in H1; rewrite length_app in H1;
           apply length_zero_iff_nil; lia);
        subst l; rewrite app_nil_r in H1; simpl in H2.
      * f_equal; [apply Hc; [exact Hd | exact H1] | apply IHcs; [exact Hds|]].
        now symmetry.
      * f_equal; [apply Hc; [exact Hd | now symmetry] | apply IHcs; [exact Hds|]].
        exact H2.
Qed.

(** Packing the mapped leaves of a nest into the nest maps the nest. *)
Lemma pack_map_flatten (f : A -> B) (s : nest A) :
  pack_sequence_as s (map f (flatten s)) = Ok (map_structure f s).
Proof.
  destruct (@NestFacts.pack_sequence_as_ok A B s (map f (flatten s)))
    as [d [Hpack [Hflat Hshape]]].
  { apply length_map. }
  rewrite Hpack. f_equal. now apply map_structure_determined.
Qed.
End Facts.
End NestDetermined.

(** ** More on construction: every way it ends *)

Module ConstructionOutcomes.
Section Outcomes.
Context {TL : TensorLib} {NL : NetworkLib}.

Variables (observation_spec : nest TensorSpec)
          (action_spec : nest BoundedTensorSpec)
          (fc_layer_params : option (list nat))
          (conv_layer_params : option (list ConvParams))
          (activation_fn : Activation)
          (discrete_projection_net continuous_projection_net : ProjectionFactory)
          (name : string).

Lemma projection_loop_Raise_inv (leaves : list BoundedTensorSpec) :
  forall acc log e log',
    projection_loop discrete_projection_net continuous_projection_net
      leaves acc log = (Raise e, log') ->
    exists before leaf after new,
      leaves = before ++ leaf :: after /\
      Forall2 (built_by discrete_projection_net continuous_projection_net)
        before new /\
      projection_for discrete_projection_net continuous_projection_net leaf
      = Raise e /\
      log' = log ++ map projection_event (before ++ [leaf]).
Proof.
  induction leaves as [|leaf rest IH]; intros acc log e log' H; simpl in H.
  - discriminate H.
  - destruct (projection_for discrete_projection_net
                continuous_projection_net leaf) as [net|e0] eqn:Hleaf.
    + assert (Hrest : projection_loop discrete_projection_net
                        continuous_projection_net rest (acc ++ [net])
                        (log ++ [projection_event leaf]) = (Raise e, log')).
      { unfold projection_for in Hleaf. unfold projection_event.
        unfold cbind, invoke in H.
        destruct (is_discrete leaf); rewrite Hleaf in H; exact H. }
      destruct (IH _ _ _ _ Hrest) as (before & l & after & new & -> & Hb & Hl & ->).
      exists (leaf :: before), l, after, (net :: new). repeat split.
      * constructor; assumption.
      * exact Hl.
      * simpl. now rewrite <- app_assoc.
    + exists [], leaf, rest, []. simpl.
      assert (Hout : e = e0 /\ log' = log ++ [projection_event leaf]).
      { unfold projection_for in Hleaf. unfold projection_event.
        unfold cbind, invoke in H.
        destruct (is_discrete leaf); rewrite Hleaf in H;
          injection H as <- <-; split; reflexivity. }
      destruct Hout as [-> ->].
      split; [reflexivity|]. split; [constructor|]. split; [exact Hleaf|].
      reflexivity.
Qed.

(** X1: construction returns a network exactly when the observation spec
    holds at most one observation, the layer builder succeeds, and the factory
    selected for every leaf of the action spec succeeds on it; nothing else
    in the constructor can fail. *)
Theorem init_succeeds_iff (log : list event) :
  (exists net log',
      __init__ observation_spec action_spec fc_layer_params conv_layer_params
        activation_fn discrete_projection_net continuous_projection_net name
        log = (Ok net, log')) <->
  (length (flatten observation_spec) <= 1 /\
   (exists layers,
       mlp_layers conv_layer_params fc_layer_params activation_fn
         glorot_uniform "input_mlp" = Ok layers) /\
   (exists nets,
       Forall2
         (fun leaf proj_net =>
            (if is_discrete leaf then discrete_projection_net leaf
             else continuous_projection_net leaf) = Ok proj_net)
         (flatten action_spec) nets)).
Proof.
  split.
  - intros (net & log' & Hinit). apply InitFacts.init_inv in Hinit.
    destruct Hinit as (Hobs & Hlayers & Hnets & _).
    split; [exact Hobs|]. split; [eauto|]. exists (_projection_networks net).
    exact Hnets.
  - intros (Hobs & (layers & Hlayers) & (nets & Hnets)).
    destruct (@InitFacts.init_ok _ _ discrete_projection_net
                continuous_projection_net observation_spec action_spec
                fc_layer_params conv_layer_params activation_fn name log
                layers nets Hobs Hlayers Hnets) as (net & log' & Hinit & _).
    eauto.
Qed.

(** X2: a construction that raises does so for one of three reasons only.
    Either there are several observations, and it raises the ValueError of
    line 91 with nothing built; or the layer builder raised, and no factory
    was called; or the factory of some leaf raised after the factories of
    all leaves before it succeeded, and no later leaf was passed to a
    factory.  The exception is the one the builder raised, and the base
    constructor was not reached. *)
Theorem init_raises_inv (log log' : list event) (e : exn) :
  __init__ observation_spec action_spec fc_layer_params conv_layer_params
    activation_fn discrete_projection_net continuous_projection_net name log
  = (Raise e, log') ->
  (1 < length (flatten observation_spec) /\
   e = ValueError "Only a single observation is supported by this network" /\
   log' = log) \/
  (mlp_layers conv_layer_params fc_layer_params activation_fn glorot_uniform
     "input_mlp" = Raise e /\
   log' = log ++ [MlpLayersBuilt]) \/
  (exists before leaf after nets,
      flatten action_spec = before ++ leaf :: after /\
      Forall2
        (fun l proj_net =>
           (if is_discrete l then discrete_projection_net l
            else continuous_projection_net l) = Ok proj_net)
        before nets /\
      (if is_discrete leaf then discrete_projection_net leaf
       else continuous_projection_net leaf) = Raise e /\
      log' = log ++ MlpLayersBuilt
               :: map (fun l =>
                         if is_discrete l then DiscreteProjectionBuilt l
                         else ContinuousProjectionBuilt l)
                    (before ++ [leaf])).
Proof.
  unfold __init__. destruct (1 <? length (flatten observation_spec)) eqn:Hobs.
  { intros [= <- <-]. left. apply Nat.ltb_lt in Hobs. auto. }
  unfold cbind at 1, invoke at 1.
  destruct (mlp_layers _ _ _ _ _) as [layers|e0].
  2:{ intros [= <- <-]. right; left. auto. }
  unfold cbind at 1.
  destruct (projection_loop _ _ _ _ _) as [[nets|e0] log1] eqn:Hloop.
  - apply InitFacts.projection_loop_inv in Hloop.
    destruct Hloop as [new [-> [Hall ->]]].
    unfold cbind at 1, lift.
    destruct (@NestFacts.pack_sequence_as_ok _ _ action_spec
                (map output_spec ([] ++ new))) as [out_spec [Hpack _]].
    { rewrite length_map. simpl. symmetry. exact (Forall2_length Hall). }
    rewrite Hpack. unfold cbind, super_init, invoke, cret. discriminate.
  - intros [= <- <-]. right; right.
    apply projection_loop_Raise_inv in Hloop.
    destruct Hloop as (before & leaf & after & new & Hsplit & Hb & Hl & ->).
    exists before, leaf, after, new. repeat split; try assumption.
    now rewrite <- app_assoc.
Qed.

(** X3: when the factory of a leaf raises and the factories of the leaves
    before it succeed, construction raises that exception; the log then
    holds the layer builder and one factory call for each leaf up to the
    failing one, so the leaves after it were never passed to a factory and
    the base constructor was not called. *)
Theorem init_factory_raises (log : list event) (layers : list Layer)
  (before after : list BoundedTensorSpec) (leaf : BoundedTensorSpec)
  (nets : list ProjectionNetwork) (e : exn) :
  length (flatten observation_spec) <= 1 ->
  mlp_layers conv_layer_params fc_layer_params activation_fn glorot_uniform
    "input_mlp" = Ok layers ->
  flatten action_spec = before ++ leaf :: after ->
  Forall2
    (fun l proj_net =>
       (if is_discrete l then discrete_projection_net l
        else continuous_projection_net l) = Ok proj_net)
    before nets ->
  (if is_discrete leaf then discrete_projection_net leaf
   else continuous_projection_net leaf) = Raise e ->
  __init__ observation_spec action_spec fc_layer_params conv_layer_params
    activation_fn discrete_projection_net continuous_projection_net name log
  = (Raise e,
     log ++ MlpLayersBuilt
         :: map (fun l =>
                   if is_discrete l then DiscreteProjectionBuilt l
                   else ContinuousProjectionBuilt l)
              (before ++ [leaf])).
Proof.
  intros Hobs Hlayers Hsplit Hbefore Hleaf.
  unfold __init__. apply Nat.ltb_ge in Hobs. rewrite Hobs.
  unfold cbind at 1, invoke at 1. rewrite Hlayers.
  unfold cbind at 1. rewrite Hsplit.
  rewrite (@Propagation.projection_loop_Raise _ _ discrete_projection_net
             continuous_projection_net before after leaf nets e Hbefore Hleaf).
  now rewrite <- app_assoc.
Qed.

(** X4: on an action spec whose leaves are all discrete the continuous
    factory plays no part: construction gives the same result and the same
    log whatever continuous factory it is handed. *)
Theorem init_discrete_only (other : ProjectionFactory) (log : list event) :
  forallb is_discrete (flatten action_spec) = true ->
  __init__ observation_spec action_spec fc_layer_params conv_layer_params
    activation_fn discrete_projection_net continuous_projection_net name log
  = __init__ observation_spec action_spec fc_layer_params conv_layer_params
      activation_fn discrete_projection_net other name log.
Proof.
  intros Hall. unfold __init__.
  destruct (1 <? length (flatten observation_spec)); [reflexivity|].
  unfold cbind at 1 3, invoke at 1 2.
  destruct (mlp_layers _ _ _ _ _) as [layers|e]; [|reflexivity].
  unfold cbind at 1 4.
  now rewrite (Propagation.projection_loop_discrete_only _ _ other _ Hall).
Qed.

(** X5: on an action spec whose leaves are all continuous the discrete
    factory plays no part. *)
Theorem init_continuous_only (other : ProjectionFactory) (log : list event) :
  forallb (fun leaf => negb (is_discrete leaf)) (flatten action_spec) = true ->
  __init__ observation_spec action_spec fc_layer_params conv_layer_params
    activation_fn discrete_projection_net continuous_projection_net name log
  = __init__ observation_spec action_spec fc_layer_params conv_layer_params
      activation_fn other continuous_projection_net name log.
Proof.
  intros Hall. unfold __init__.
  destruct (1 <? length (flatten observation_spec)); [reflexivity|].
  unfold cbind at 1 3, invoke at 1 2.
  destruct (mlp_layers _ _ _ _ _) as [layers|e]; [|reflexivity].
  unfold cbind at 1 4.
  now rewrite (Propagation.projection_loop_continuous_only _ _ other _ Hall).
Qed.
End Outcomes.
End ConstructionOutcomes.

(** ** More on the shape of what is built and returned *)

Module Shapes.
Section Facts.
Context {TL : TensorLib} {NL : NetworkLib}.

Lemma Forall2_map_eq {A B C : Type} (R : A -> B -> Prop) (f : A -> C)
  (g : B -> C) (xs : list A) (ys : list B) :
  Forall2 R xs ys ->
  (forall x y, In x xs -> R x y -> g y = f x) ->
  map g ys = map f xs.
Proof.
  induction 1 as [|x y xs ys Hxy _ IH]; intros Hfg; simpl.
  - reflexivity.
  - f_equal.
    + apply Hfg; [now left | exact Hxy].
    + apply IH. intros x' y' Hin. apply Hfg. now right.
Qed.

Lemma Forall2_singleton {A B : Type} (R : A -> B -> Prop) (x : A)
  (ys : list B) :
  Forall2 R [x] ys -> exists y, ys = [y] /\ R x y.
Proof.
  intros H. inversion H as [|? y ? ys' Hxy Hrest]; subst.
  inversion Hrest; subst. eauto.
Qed.

Lemma Forall2_compose {A B C : Type} (R : A -> B -> Prop) (S : B -> C -> Prop)
  (xs : list A) (ys : list B) :
  Forall2 R xs ys ->
  forall zs, Forall2 S ys zs ->
  Forall2 (fun x z => exists y, R x y /\ S y z) xs zs.
Proof.
  induction 1 as [|x y xs ys Hxy _ IH]; intros zs Hzs; inversion Hzs; subst.
  - constructor.
  - constructor; [eauto | now apply IH].
Qed.

(** The outputs of [call] before packing are the projections' results on
    the restored features, in order. *)
Lemma call_outputs_Forall2 (self : t) (observations : nest Tensor)
  (r : nat) (h' : Tensor) (outputs : list Distribution) :
  call_outputs self observations = Ok (r, h', outputs) ->
  Forall2 (fun projection d => project projection h' r = Ok d)
    (_projection_networks self) outputs.
Proof.
  intros H. rewrite CallFacts.call_features_outputs in H.
  destruct (call_features self observations) as [[[r0 bs] h]|e];
    simpl in H; [|discriminate].
  destruct (BatchSquash.unflatten bs h) as [h0|e]; simpl in H; [|discriminate].
  destruct (mapM _ _) as [outs|e] eqn:Hmap; simpl in H; [|discriminate].
  injection H as <- <- <-. now apply mapM_Ok_Forall2.
Qed.

Variables (observation_spec : nest TensorSpec)
          (fc_layer_params : option (list nat))
          (conv_layer_params : option (list ConvParams))
          (activation_fn : Activation)
          (discrete_projection_net continuous_projection_net : ProjectionFactory)
          (name : string).

(** X6: when every projection network a factory returns for a leaf declares
    the output spec [spec_of leaf], the output spec of the constructed
    network is the action spec with every leaf replaced by [spec_of] of it. *)
Theorem init_output_spec_maps (action_spec : nest BoundedTensorSpec)
  (spec_of : BoundedTensorSpec -> DistributionSpec)
  (log log' : list event) (net : t) :
  __init__ observation_spec action_spec fc_layer_params conv_layer_params
    activation_fn discrete_projection_net continuous_projection_net name log
  = (Ok net, log') ->
  (forall leaf proj_net,
      In leaf (flatten action_spec) ->
      (if is_discrete leaf then discrete_projection_net leaf
       else continuous_projection_net leaf) = Ok proj_net ->
      output_spec proj_net = spec_of leaf) ->
  _output_spec net = map_structure spec_of action_spec.
Proof.
  intros Hinit Hspec. apply InitFacts.init_inv in Hinit.
  destruct Hinit as (_ & _ & Hnets & Hpack & _).
  rewrite (@Forall2_map_eq _ _ _ _ spec_of output_spec _ _ Hnets Hspec) in Hpack.
  rewrite NestDetermined.pack_map_flatten in Hpack.
  now injection Hpack.
Qed.

(** X7: on an action spec that is a single leaf, not wrapped in any
    sequence, construction holds one projection network, the output spec is
    that network's own spec as a bare leaf, and every successful call
    returns one bare distribution, the one that network gives. *)
Theorem bare_action_spec (a : BoundedTensorSpec) (log log' : list event)
  (net : t) :
  __init__ observation_spec (Leaf a) fc_layer_params conv_layer_params
    activation_fn discrete_projection_net continuous_projection_net name log
  = (Ok net, log') ->
  exists proj_net,
    (if is_discrete a then discrete_projection_net a
     else continuous_projection_net a) = Ok proj_net /\
    _projection_networks net = [proj_net] /\
    _output_spec net = Leaf (output_spec proj_net) /\
    forall observations step_type network_state dists state_out,
      call net observations step_type network_state = Ok (dists, state_out) ->
      exists r h' d,
        call_outputs net observations = Ok (r, h', [d]) /\
        project proj_net h' r = Ok d /\
        dists = Leaf d.
Proof.
  intros Hinit. apply InitFacts.init_inv in Hinit.
  destruct Hinit as (_ & _ & Hnets & Hpack & _ & Hact & _).
  simpl in Hnets. apply Forall2_singleton in Hnets.
  destruct Hnets as [p [Hone Hp]].
  exists p. split; [exact Hp|]. split; [exact Hone|].
  rewrite Hone in Hpack. simpl in Hpack. split; [now injection Hpack|].
  intros observations step_type network_state dists state_out Hcall.
  rewrite CallFacts.call_unfold, Hact in Hcall.
  destruct (call_outputs net observations) as [[[r h'] outputs]|e] eqn:Hout;
    simpl in Hcall; [|discriminate].
  pose proof (call_outputs_Forall2 _ _ Hout) as Hproj. rewrite Hone in Hproj.
  apply Forall2_singleton in Hproj. destruct Hproj as [d [-> Hd]].
  simpl in Hcall. injection Hcall as <- <-.
  exists r, h', d. repeat split. exact Hd.
Qed.

(** X8: on an action spec without leaves construction calls no factory and
    holds no projection network, and a call on the network returns a
    structure without leaves as soon as the features are computed and
    restored. *)
Theorem empty_action_spec (action_spec : nest BoundedTensorSpec)
  (log log' : list event) (net : t) :
  flatten action_spec = [] ->
  __init__ observation_spec action_spec fc_layer_params conv_layer_params
    activation_fn discrete_projection_net continuous_projection_net name log
  = (Ok net, log') ->
  _projection_networks net = [] /\
  log' = log ++ [MlpLayersBuilt; SuperInit] /\
  flatten (_output_spec net) = [] /\
  forall observations step_type network_state r bs h h',
    call_features net observations = Ok (r, bs, h) ->
    BatchSquash.unflatten bs h = Ok h' ->
    exists dists,
      call net observations step_type network_state
      = Ok (dists, network_state) /\
      flatten dists = [] /\
      structure_of dists = structure_of action_spec.
Proof.
  intros Hempty Hinit. apply InitFacts.init_inv in Hinit.
  destruct Hinit as (_ & _ & Hnets & Hpack & _ & Hact & _ & _ & Hlog).
  rewrite Hempty in Hnets, Hlog.
  assert (Hnil : _projection_networks net = [])
    by (inversion Hnets; reflexivity).
  split; [exact Hnil|]. split; [exact Hlog|].
  rewrite Hnil in Hpack. apply NestFacts.pack_sequence_as_inv in Hpack.
  split; [exact (proj1 Hpack)|].
  intros observations step_type network_state r bs h h' Hfeat Hun.
  rewrite CallFacts.call_unfold, CallFacts.call_features_outputs, Hfeat, Hact.
  simpl. rewrite Hun, Hnil. simpl.
  destruct (@NestFacts.pack_sequence_as_ok _ Distribution action_spec [])
    as [dists [Hd [Hflat Hshape]]].
  { now rewrite Hempty. }
  exists dists. rewrite Hd. simpl. auto.
Qed.

(** X9: on a constructed network, the distributions a successful call
    returns pair off with the leaves of the action spec, in flattened order:
    the distribution at a leaf is what the projection network built from
    that very leaf gives on the restored features. *)
Theorem call_leaf_by_leaf (action_spec : nest BoundedTensorSpec)
  (log log' : list event) (net : t) (observations : nest Tensor)
  (step_type : Tensor) (network_state state_out : nest Tensor)
  (dists : nest Distribution) :
  __init__ observation_spec action_spec fc_layer_params conv_layer_params
    activation_fn discrete_projection_net continuous_projection_net name log
  = (Ok net, log') ->
  call net observations step_type network_state = Ok (dists, state_out) ->
  exists r h',
    (exists outputs, call_outputs net observations = Ok (r, h', outputs)) /\
    Forall2
      (fun leaf d =>
         exists proj_net,
           (if is_discrete leaf then discrete_projection_net leaf
            else continuous_projection_net leaf) = Ok proj_net /\
           project proj_net h' r = Ok d)
      (flatten action_spec) (flatten dists).
Proof.
  intros Hinit Hcall. apply InitFacts.init_inv in Hinit.
  destruct Hinit as (_ & _ & Hnets & _ & _ & Hact & _).
  rewrite CallFacts.call_unfold, Hact in Hcall.
  destruct (call_outputs net observations) as [[[r h'] outputs]|e] eqn:Hout;
    simpl in Hcall; [|discriminate].
  destruct (pack_sequence_as action_spec outputs) as [packed|e] eqn:Hpack;
    simpl in Hcall; [|discriminate].
  injection Hcall as <- <-.
  apply NestFacts.pack_sequence_as_inv in Hpack. destruct Hpack as [-> _].
  exists r, h'. split; [eauto|].
  exact (Forall2_compose Hnets (call_outputs_Forall2 _ _ Hout)).
Qed.
End Facts.
End Shapes.

(** ** More on the forward call: what it ignores and how it fails *)

Module CallOutcomes.
Section Outcomes.
Context {TL : TensorLib} {NL : NetworkLib}.

Variable self : t.
Variable observations : nest Tensor.

(** X10: the incoming network state has no part in the computation: two
    calls that differ in it alone raise the same exception, or return the
    same distributions, each with its own state handed back. *)
Theorem call_ignores_network_state (step_type : Tensor)
  (network_state1 network_state2 : nest Tensor) :
  match call self observations step_type network_state1,
        call self observations step_type network_state2 with
  | Ok (dists1, out1), Ok (dists2, out2) =>
      dists1 = dists2 /\ out1 = network_state1 /\ out2 = network_state2
  | Raise e1, Raise e2 => e1 = e2
  | _, _ => False
  end.
Proof.
  rewrite !CallFacts.call_unfold.
  destruct (call_outputs self observations) as [[[r h'] outputs]|e]; simpl;
    [|reflexivity].
  destruct (pack_sequence_as (_action_spec self) outputs) as [packed|e]; simpl;
    [auto | reflexivity].
Qed.

(** X11: when the features are computed and restored, the projections
    before some projection succeed and that one raises, the call raises the
    same exception. *)
Theorem call_projection_raises (step_type : Tensor)
  (network_state : nest Tensor) (r : nat) (bs : BatchSquash.t)
  (h h' : Tensor) (before after : list ProjectionNetwork)
  (projection : ProjectionNetwork) (outs : list Distribution) (e : exn) :
  call_features self observations = Ok (r, bs, h) ->
  BatchSquash.unflatten bs h = Ok h' ->
  _projection_networks self = before ++ projection :: after ->
  Forall2 (fun p d => project p h' r = Ok d) before outs ->
  project projection h' r = Raise e ->
  call self observations step_type network_state = Raise e.
Proof.
  intros Hfeat Hun Hsplit Hbefore Hraise.
  rewrite CallFacts.call_unfold, CallFacts.call_features_outputs, Hfeat.
  simpl. rewrite Hun, Hsplit. simpl.
  rewrite (Propagation.mapM_Raise
             (fun p => project p h' r) after projection Hbefore Hraise).
  reflexivity.
Qed.

(** X12: when the outer rank is determined, the first observation is well
    formed, the layers before some layer carry the squashed float32
    observation through, and that layer raises, the call raises the same
    exception. *)
Theorem call_layer_raises (step_type : Tensor) (network_state : nest Tensor)
  (r : nat) (obs0 y : Tensor) (before after : list Layer) (layer : Layer)
  (e : exn) :
  get_outer_rank observations (_observation_spec self) = Ok r ->
  nth_error (flatten observations) 0 = Some obs0 ->
  well_formed obs0 ->
  _mlp_layers self = before ++ layer :: after ->
  feeds_through before (squashed r (cast obs0 float32)) y ->
  layer y = Raise e ->
  call self observations step_type network_state = Raise e.
Proof.
  intros Hrank Hnth Hwf Hsplit Hfeeds Hraise.
  unfold call. rewrite Hrank. simpl.
  apply getitem_Ok in Hnth. rewrite Hnth. simpl.
  rewrite (ShapeFacts.flatten_ok _ (ShapeFacts.well_formed_cast float32 Hwf)).
  simpl. rewrite Hsplit, Propagation.layer_loop_app.
  apply CallFacts.layer_loop_feeds in Hfeeds. rewrite Hfeeds. simpl.
  rewrite Hraise. reflexivity.
Qed.
End Outcomes.
End CallOutcomes.

(** ** The outcomes on the concrete library *)

Module OutcomeWitnesses.

Lemma init_raises_inv_witness :
  __init__ (NL := toy_lib) (Leaf obs_leaf) mixed_action_spec (Some [5; 6])
    (Some [(8, 3, 1)]) tt categorical_net normal_net
    "ActorDistributionNetwork" []
  = (Raise (FrameworkError "no convolution layers here"), [MlpLayersBuilt]) /\
  ((1 < length (flatten (Leaf obs_leaf)) /\
    FrameworkError "no convolution layers here"
    = ValueError "Only a single observation is supported by this network" /\
    [MlpLayersBuilt] = []) \/
   (mlp_layers (NetworkLib := toy_lib) (Some [(8, 3, 1)]) (Some [5; 6]) tt
      glorot_uniform "input_mlp"
    = Raise (FrameworkError "no convolution layers here") /\
    [MlpLayersBuilt] = [] ++ [MlpLayersBuilt]) \/
   (exists before leaf after nets,
       flatten mixed_action_spec = before ++ leaf :: after /\
       Forall2
         (fun l proj_net =>
            (if is_discrete l then categorical_net l else normal_net l)
            = Ok proj_net)
         before nets /\
       (if is_discrete leaf then categorical_net leaf else normal_net leaf)
       = Raise (FrameworkError "no convolution layers here") /\
       [MlpLayersBuilt]
       = [] ++ MlpLayersBuilt
            :: map (fun l =>
                      if is_discrete l then DiscreteProjectionBuilt l
                      else ContinuousProjectionBuilt l)
                 (before ++ [leaf]))).
Proof.
  split; [reflexivity|].
  apply (ConstructionOutcomes.init_raises_inv (NL := toy_lib) (Leaf obs_leaf)
           mixed_action_spec (Some [5; 6]) (Some [(8, 3, 1)]) tt
           categorical_net normal_net "ActorDistributionNetwork" []).
  reflexivity.
Defined.

Lemma init_factory_raises_witness :
  length (flatten (Leaf obs_leaf)) <= 1 /\
  flatten (Seq [Leaf discrete_leaf; Leaf reversed_leaf; Leaf continuous_leaf])
  = [discrete_leaf] ++ reversed_leaf :: [continuous_leaf] /\
  checked_categorical_net reversed_leaf
  = Raise (ValueError "maximum is below minimum") /\
  __init__ (NL := toy_lib) (Leaf obs_leaf)
    (Seq [Leaf discrete_leaf; Leaf reversed_leaf; Leaf continuous_leaf])
    (Some [5; 6]) None tt checked_categorical_net normal_net
    "ActorDistributionNetwork" []
  = (Raise (ValueError "maximum is below minimum"),
     [MlpLayersBuilt; DiscreteProjectionBuilt discrete_leaf;
      DiscreteProjectionBuilt reversed_leaf]).
Proof.
  split; [simpl; lia|]. split; [reflexivity|]. split; [reflexivity|].
  refine (@ConstructionOutcomes.init_factory_raises Z_tensors toy_lib
            (Leaf obs_leaf)
            (Seq [Leaf discrete_leaf; Leaf reversed_leaf; Leaf continuous_leaf])
            (Some [5; 6]) None tt checked_categorical_net normal_net
            "ActorDistributionNetwork" [] [flatten_layer; dense 5; dense 6]
            [discrete_leaf] [continuous_leaf] reversed_leaf
            [categorical_projection discrete_leaf]
            (ValueError "maximum is below minimum") _ _ _ _ _).
  - simpl; lia.
  - reflexivity.
  - reflexivity.
  - repeat constructor.
  - reflexivity.
Defined.

Lemma init_discrete_only_witness :
  forallb is_discrete (flatten (Seq [Leaf discrete_leaf; Leaf discrete_leaf]))
  = true /\
  __init__ (NL := toy_lib) (Leaf obs_leaf)
    (Seq [Leaf discrete_leaf; Leaf discrete_leaf]) (Some [5; 6]) None tt
    categorical_net normal_net "ActorDistributionNetwork" []
  = __init__ (NL := toy_lib) (Leaf obs_leaf)
      (Seq [Leaf discrete_leaf; Leaf discrete_leaf]) (Some [5; 6]) None tt
      categorical_net batch_only_net "ActorDistributionNetwork" [].
Proof.
  split; [reflexivity|].
  apply (ConstructionOutcomes.init_discrete_only (NL := toy_lib)).
  reflexivity.
Defined.

Lemma init_continuous_only_witness :
  forallb (fun leaf => negb (is_discrete leaf))
    (flatten (Seq [Leaf continuous_leaf; Seq [Leaf continuous_leaf]]))
  = true /\
  __init__ (NL := toy_lib) (Leaf obs_leaf)
    (Seq [Leaf continuous_leaf; Seq [Leaf continuous_leaf]]) (Some [5; 6])
    None tt categorical_net normal_net "ActorDistributionNetwork" []
  = __init__ (NL := toy_lib) (Leaf obs_leaf)
      (Seq [Leaf continuous_leaf; Seq [Leaf continuous_leaf]]) (Some [5; 6])
      None tt checked_categorical_net normal_net "ActorDistributionNetwork" [].
Proof.
  split; [reflexivity|].
  apply (ConstructionOutcomes.init_continuous_only (NL := toy_lib)).
  reflexivity.
Defined.

Lemma init_output_spec_maps_witness :
  build (Leaf obs_leaf) mixed_action_spec = (Ok toy_network, toy_log) /\
  _output_spec toy_network = map_structure toy_spec_of mixed_action_spec.
Proof.
  split; [reflexivity|].
  apply (Shapes.init_output_spec_maps (NL := toy_lib))
    with (observation_spec := Leaf obs_leaf) (fc_layer_params := Some [5; 6])
         (conv_layer_params := None) (activation_fn := tt)
         (discrete_projection_net := categorical_net)
         (continuous_projection_net := normal_net)
         (name := "ActorDistributionNetwork") (log := []) (log' := toy_log).
  - reflexivity.
  - intros leaf proj_net _ H. unfold toy_spec_of.
    destruct (is_discrete leaf); injection H as <-; reflexivity.
Defined.

Lemma bare_action_spec_witness :
  build (Leaf obs_leaf) (Leaf continuous_leaf)
  = (Ok bare_network,
     [MlpLayersBuilt; ContinuousProjectionBuilt continuous_leaf; SuperInit]) /\
  exists proj_net,
    (if is_discrete continuous_leaf then categorical_net continuous_leaf
     else normal_net continuous_leaf) = Ok proj_net /\
    _projection_networks bare_network = [proj_net] /\
    _output_spec bare_network = Leaf (output_spec proj_net) /\
    forall observations step_type network_state dists state_out,
      call bare_network observations step_type network_state
      = Ok (dists, state_out) ->
      exists r h' d,
        call_outputs bare_network observations = Ok (r, h', [d]) /\
        project proj_net h' r = Ok d /\
        dists = Leaf d.
Proof.
  split; [reflexivity|].
  apply (Shapes.bare_action_spec (NL := toy_lib))
    with (observation_spec := Leaf obs_leaf) (fc_layer_params := Some [5; 6])
         (conv_layer_params := None) (activation_fn := tt)
         (name := "ActorDistributionNetwork") (log := [])
         (log' := [MlpLayersBuilt; ContinuousProjectionBuilt continuous_leaf;
                   SuperInit]).
  reflexivity.
Defined.

Lemma empty_action_spec_witness :
  flatten (Seq [] : nest BoundedTensorSpec) = [] /\
  build (Leaf obs_leaf) (Seq []) = (Ok idle_network, [MlpLayersBuilt; SuperInit]) /\
  _projection_networks idle_network = [] /\
  exists dists,
    call idle_network (Leaf obs_2_4) step_first (Leaf step_mid)
    = Ok (dists, Leaf step_mid) /\
    flatten dists = [] /\
    structure_of dists = structure_of (Seq [] : nest BoundedTensorSpec).
Proof.
  split; [reflexivity|]. split; [reflexivity|].
  destruct (@Shapes.empty_action_spec Z_tensors toy_lib (Leaf obs_leaf)
              (Some [5; 6]) None tt categorical_net normal_net
              "ActorDistributionNetwork" (Seq []) []
              [MlpLayersBuilt; SuperInit] idle_network
              eq_refl eq_refl) as (Hnets & _ & _ & Hcall).
  split; [exact Hnets|].
  apply (Hcall (Leaf obs_2_4) step_first (Leaf step_mid) 2
           {| BatchSquash._batch_dims := 2;
              BatchSquash._original_tensor_shape := Some [2; 4; 3] |}
           toy_hidden toy_restored); reflexivity.
Defined.

Lemma call_leaf_by_leaf_witness :
  build (Leaf obs_leaf) mixed_action_spec = (Ok toy_network, toy_log) /\
  call toy_network (Leaf obs_2_4) step_first (Seq []) = Ok (toy_dists, Seq []) /\
  exists r h',
    (exists outputs,
        call_outputs toy_network (Leaf obs_2_4) = Ok (r, h', outputs)) /\
    Forall2
      (fun leaf d =>
         exists proj_net,
           (if is_discrete leaf then categorical_net leaf
            else normal_net leaf) = Ok proj_net /\
           project proj_net h' r = Ok d)
      (flatten mixed_action_spec) (flatten toy_dists).
Proof.
  split; [reflexivity|]. split; [reflexivity|].
  apply (Shapes.call_leaf_by_leaf (NL := toy_lib))
    with (observation_spec := Leaf obs_leaf) (fc_layer_params := Some [5; 6])
         (conv_layer_params := None) (activation_fn := tt)
         (name := "ActorDistributionNetwork") (log := []) (log' := toy_log)
         (net := toy_network) (step_type := step_first)
         (network_state := Seq []) (state_out := Seq []); reflexivity.
Defined.

Lemma call_projection_raises_witness :
  call_features picky_network (Leaf obs_2_4)
  = Ok (2, {| BatchSquash._batch_dims := 2;
              BatchSquash._original_tensor_shape := Some [2; 4; 3] |},
        toy_hidden) /\
  project (batch_only_projection continuous_leaf) toy_restored 2
  = Raise (FrameworkError "only one outer dimension is supported") /\
  call picky_network (Leaf obs_2_4) step_first (Seq [])
  = Raise (FrameworkError "only one outer dimension is supported").
Proof.
  split; [reflexivity|]. split; [reflexivity|].
  apply (CallOutcomes.call_projection_raises (NL := toy_lib))
    with (r := 2)
         (bs := {| BatchSquash._batch_dims := 2;
                   BatchSquash._original_tensor_shape := Some [2; 4; 3] |})
         (h := toy_hidden) (h' := toy_restored)
         (before := [categorical_projection discrete_leaf])
         (after := [categorical_projection discrete_leaf])
         (projection := batch_only_projection continuous_leaf)
         (outs := [Categorical [2; 4] 5]).
  - reflexivity.
  - reflexivity.
  - reflexivity.
  - repeat constructor.
  - reflexivity.
Defined.

Lemma call_layer_raises_witness :
  get_outer_rank (Leaf obs_2_4) (_observation_spec conv_network) = Ok 2 /\
  well_formed obs_2_4 /\
  conv2d (8, 3, 1) (squashed 2 (cast obs_2_4 float32))
  = Raise InvalidArgumentError /\
  call conv_network (Leaf obs_2_4) step_first (Seq [])
  = Raise InvalidArgumentError.
Proof.
  split; [reflexivity|]. split; [reflexivity|]. split; [reflexivity|].
  apply (CallOutcomes.call_layer_raises (NL := toy_lib))
    with (r := 2) (obs0 := obs_2_4)
         (y := squashed 2 (cast obs_2_4 float32))
         (before := []) (after := [flatten_layer; dense 5])
         (layer := conv2d (8, 3, 1)).
  - reflexivity.
  - reflexivity.
  - reflexivity.
  - reflexivity.
  - constructor.
  - reflexivity.
Defined.
End OutcomeWitnesses.
